(** * dmfs-table.c: the table-descriptor parser of the device-mapper filesystem

    A shallow embedding of [src/driver/device-mapper/dmfs-table.c]
    (tokenizer, line parser, page-stream assembler and the page loop of
    [dmfs_parse]) together with the properties the specification states
    about them.

    Conventions.
    - C integers are [Z]; a value stored in an [offset_t] or an
      [unsigned long] is reduced modulo the width of that type where the
      source stores it.
    - A [char *] that is read as a C string is a [list ascii]; a
      (pointer, length) pair is the list of exactly [length] bytes.
    - Calls that leave the file (target constructors, the target-type
      registry, the table object, the page allocator) are recorded, in
      order, in a ghost [trace]; what they return is taken from the
      environment [dm_env].
    - The source as checked in does not compile ([if (rv == 0)) {] in
      [dmfs_parse_line]; [dmfs_parse] passes five arguments to the
      six-argument [dmfs_parse_page], leaving out [&num]).  The model
      reads the one obvious meaning: the extra parenthesis is dropped and
      the local [num] of [dmfs_parse] is the line counter. *)

From Stdlib Require Import ZArith List Bool Ascii String Lia.
Import ListNotations.
Local Open Scope Z_scope.

(** ** Characters and C strings *)

Definition NUL : ascii := "000"%char.
Definition NL : ascii := "010"%char.
Definition TAB : ascii := "009"%char.
Definition SPACE : ascii := " "%char.

Definition is_nl (c : ascii) : bool := Ascii.eqb c NL.

(** [delim = " \t"] in [next_token]. *)
Definition is_delim (c : ascii) : bool := Ascii.eqb c SPACE || Ascii.eqb c TAB.

(** The C string that starts at the beginning of a buffer: the bytes before
    the first NUL. *)
Fixpoint cstring (buf : list ascii) : list ascii :=
  match buf with
  | [] => []
  | c :: buf' => if Ascii.eqb c NUL then [] else c :: cstring buf'
  end.

(** [*(dst + pos) = c] on a buffer held as a list.  A store outside the
    buffer is undefined in C; here it leaves the list as it is. *)
Fixpoint store_nat (dst : list ascii) (pos : nat) (c : ascii) : list ascii :=
  match dst, pos with
  | [], _ => []
  | _ :: dst', O => c :: dst'
  | d :: dst', S pos' => d :: store_nat dst' pos' c
  end.

Definition store (dst : list ascii) (pos : Z) (c : ascii) : list ascii :=
  if pos <? 0 then dst else store_nat dst (Z.to_nat pos) c.

(** ** Tokenizer *)

(** A [char *] cursor into the line: [None] is the null pointer. *)
Definition cursor : Type := option (list ascii).

(** Splits at the first delimiter: the token before it and what follows it,
    or no rest when the string holds no delimiter. *)
Fixpoint strsep_split (s : list ascii) : list ascii * cursor :=
  match s with
  | [] => ([], None)
  | c :: s' =>
      if is_delim c then ([], Some s')
      else let '(tok, rest) := strsep_split s' in (c :: tok, rest)
  end.

(** Modelled from the spec: [strsep] is the kernel's string routine, not
    part of this file; the tokenizer "splits one line of text into
    whitespace-delimited tokens".  It follows the C library contract: a null
    cursor gives null; otherwise the token runs up to the first delimiter,
    which is overwritten by NUL, and the cursor moves behind it, or becomes
    null when there was no delimiter. *)
Definition strsep (p : cursor) : option (list ascii) * cursor :=
  match p with
  | None => (None, None)
  | Some s => let '(tok, rest) := strsep_split s in (Some tok, rest)
  end.

(** [next_token]: [do r = strsep(p, delim); while (r && *r == 0);].
    Every empty token eats one delimiter, so the loop is a structural
    recursion on the text; [next_token_loop_eq] below shows that this
    function satisfies the equation of the do-while loop. *)
Fixpoint next_token_str (s : list ascii) : option (list ascii) * cursor :=
  match s with
  | [] => (None, None)
  | c :: s' => if is_delim c then next_token_str s' else strsep (Some s)
  end.

Definition next_token (p : cursor) : option (list ascii) * cursor :=
  match p with
  | None => (None, None)
  | Some s => next_token_str s
  end.

(** ** The table, the target types and the ghost state *)

(** The fields of [struct dm_table] that this file reads ([num_targets],
    [highs]) and the target slots filled by [dm_table_add_target]. *)
Record dm_table : Type := mk_table {
  num_targets : Z;
  highs : list Z;
  targets : list (list ascii * Z)
}.

(** [struct target_type]: its name and its constructor.  The constructor
    gets the table, [start], [size] and the untokenized rest of the line,
    and returns its [int] result and the context it stored through the
    last argument.  The destructor only has effects outside this file. *)
Record target_type : Type := mk_target_type {
  tt_name : list ascii;
  ctr : dm_table -> Z -> Z -> cursor -> Z * Z
}.

Inductive event : Type :=
| EvParseLine (num : Z) (str : list ascii)
| EvGetTargetType (name : list ascii) (found : bool)
| EvCtr (name : list ascii) (start size : Z) (args : cursor) (rv : Z)
| EvAddTarget (high : Z) (name : list ascii) (context : Z) (rv : Z)
| EvDtr (name : list ascii) (context : Z)
| EvPutTargetType (name : list ascii)
| EvGetFreePage (ok : bool)
| EvFreePage
| EvCreateTable (ok : bool)
| EvPutTable
| EvTableComplete (rv : Z)
| EvParsePage (index : Z) (len : Z)
| EvPrintk (msg : string).

(** What a parse has done so far: the table under construction, the
    recorded errors and the calls made. *)
Record dstate : Type := mk_dstate {
  table : dm_table;
  errors : list (Z * string);
  trace : list event
}.

Definition log (st : dstate) (evs : list event) : dstate :=
  mk_dstate (table st) (errors st) (trace st ++ evs).

Definition set_table (st : dstate) (t : dm_table) : dstate :=
  mk_dstate t (errors st) (trace st).

(** Modelled from the spec: [dmfs_add_error] lives in another file of the
    repository; the error sink "accumulates (line-number, message)
    diagnostics", "collected in declaration order". *)
Definition dmfs_add_error (st : dstate) (num : Z) (msg : string) : dstate :=
  mk_dstate (table st) (errors st ++ [(num, msg)]) (trace st).

(** ** The environment: what the file takes from the rest of the kernel *)

Record dm_env : Type := mk_env {
  (** [PAGE_SHIFT]; [PAGE_CACHE_SHIFT] is defined as [PAGE_SHIFT]. *)
  PAGE_SHIFT : Z;
  (** width of [unsigned long] *)
  BITS_PER_LONG : nat;
  (** width of [offset_t] *)
  OFFSET_BITS : Z;
  (** [simple_strtoul(tok, NULL, 10)] *)
  simple_strtoul : list ascii -> Z;
  (** the target-type registry *)
  dm_get_target_type : list ascii -> option target_type;
  (** [dm_table_add_target(t, high, ttype, context)]: result and table *)
  dm_table_add_target : dm_table -> Z -> target_type -> Z -> Z * dm_table;
  (** [dm_table_complete(t)]: result and table *)
  dm_table_complete : dm_table -> Z * dm_table;
  (** [__get_free_page(GFP_KERNEL)]: the scratch page, or 0 *)
  get_free_page : option (list ascii);
  (** [dm_create_table()]: a fresh table, or NULL *)
  dm_create_table : option dm_table
}.

Section Parser.

Context (K : dm_env).

(** [PAGE_SIZE] is [1UL << PAGE_SHIFT]; the page cache uses pages of the
    same size. *)
Definition PAGE_SIZE : Z := 2 ^ PAGE_SHIFT K.
Definition PAGE_CACHE_SIZE : Z := PAGE_SIZE.

(** Storing into an [offset_t] and into an [unsigned long]. *)
Definition to_offset (z : Z) : Z := z mod 2 ^ OFFSET_BITS K.
Definition to_ulong (z : Z) : Z := z mod 2 ^ Z.of_nat (BITS_PER_LONG K).

(** [t->highs[i]] *)
Definition high_at (t : dm_table) (i : Z) : Z := nth (Z.to_nat i) (highs t) 0.

(** [n = 0; if (t->num_targets) n = t->highs[t->num_targets - 1] + 1;]
    with [n] an [offset_t]. *)
Definition start_of_next_range (t : dm_table) : Z :=
  if num_targets t =? 0 then 0
  else to_offset (high_at t (num_targets t - 1) + 1).

(** ** The line parser *)

(** [dmfs_parse_line(t, num, str)].  Every [goto out] is the
    [dmfs_add_error] with the message set just before it; the only way out
    that records nothing is the [return] behind a successful
    [dm_table_add_target]. *)
Definition dmfs_parse_line (st0 : dstate) (num : Z) (str : list ascii) : dstate :=
  let st := log st0 [EvParseLine num str] in
  let '(tok1, p1) := next_token (Some str) in
  match tok1 with
  | None => dmfs_add_error st num "No start argument"
  | Some tok1 =>
  let start := to_offset (simple_strtoul K tok1) in
  let '(tok2, p2) := next_token p1 in
  match tok2 with
  | None => dmfs_add_error st num "No size argument"
  | Some tok2 =>
  let size := to_offset (simple_strtoul K tok2) in
  if negb (start =? start_of_next_range (table st))
  then dmfs_add_error st num "Gap in table"
  else
  let '(tok3, p3) := next_token p2 in
  match tok3 with
  | None => dmfs_add_error st num "No target type"
  | Some tok3 =>
  match dm_get_target_type K tok3 with
  | None =>
      dmfs_add_error (log st [EvGetTargetType tok3 false]) num
        "Target type unknown"
  | Some ttype =>
      let '(rv, context) := ctr ttype (table st) start size p3 in
      let st := log st [EvGetTargetType tok3 true;
                        EvCtr (tt_name ttype) start size p3 rv] in
      if rv =? 0 then
        let high := to_offset (start + (size - 1)) in
        let '(rv2, t') := dm_table_add_target K (table st) high ttype context in
        let st := log (set_table st t')
                      [EvAddTarget high (tt_name ttype) context rv2] in
        if rv2 =? 0 then st
        else
          dmfs_add_error
            (log st [EvDtr (tt_name ttype) context;
                     EvPutTargetType (tt_name ttype)])
            num "Error adding target to table"
      else
        dmfs_add_error (log st [EvPutTargetType (tt_name ttype)]) num
          "This message should never appear (constructor error)"
  end end end end.

(** ** The page-stream assembler *)

(** [dmfs_copy(dst, dstlen, src, srclen, flag)], with [dst] given as the
    buffer and the position written to, and [(src, srclen)] as the list of
    the bytes to read.  Returns [copied], [*flag] and the buffer.  The
    newline that ends a line is counted in [copied] and stored as NUL. *)
Fixpoint dmfs_copy (dst : list ascii) (pos dstlen : Z) (src : list ascii)
  : Z * bool * list ascii :=
  match src with
  | [] => (0, false, dst)
  | c :: src' =>
      if dstlen =? 0 then (0, false, dst)
      else if is_nl c then (1, true, store dst pos NUL)
      else
        let '(copied, flag, dst') :=
          dmfs_copy (store dst pos c) (pos + 1) (dstlen - 1) src' in
        (copied + 1, flag, dst')
  end.

(** The line buffer: the scratch page [tmp] and the fill length [*tmpl]. *)
Record linebuf : Type := mk_linebuf {
  tmp : list ascii;
  tmpl : Z
}.

(** The do-while loop of [dmfs_parse_page]; [fuel] bounds the number of
    iterations.  The result is the return value, the parse state, the line
    buffer and the line counter [*num]. *)
Fixpoint dmfs_parse_page_loop (fuel : nat) (st : dstate) (buf : list ascii)
  (lb : linebuf) (num : Z) : option (Z * dstate * linebuf * Z) :=
  match fuel with
  | O => None
  | S fuel' =>
      let '(copied, flag, tmp') :=
        dmfs_copy (tmp lb) (tmpl lb) (PAGE_SIZE - tmpl lb - 1) buf in
      let buf' := skipn (Z.to_nat copied) buf in
      if tmpl lb + copied =? PAGE_SIZE - 1 then
        (* line_too_long *)
        Some (-1, dmfs_add_error st num "Line too long",
              mk_linebuf tmp' (tmpl lb), num)
      else
        let '(st1, lb1, num1) :=
          if flag
          then (dmfs_parse_line st num (cstring tmp'), mk_linebuf tmp' 0, num + 1)
          else (st, mk_linebuf tmp' copied, num) in
        if 0 <? Z.of_nat (List.length buf') then
          dmfs_parse_page_loop fuel' st1 buf' lb1 num1
        else Some (0, st1, lb1, num1)
  end.

(** Every iteration but the last takes at least one byte, so one more
    iteration than there are bytes is always enough
    (see [dmfs_parse_page_total]). *)
Definition dmfs_parse_page (st : dstate) (buf : list ascii) (lb : linebuf)
  (num : Z) : option (Z * dstate * linebuf * Z) :=
  dmfs_parse_page_loop (S (List.length buf)) st buf lb num.

(** ** The page loop of [dmfs_parse] *)

(** A page of the page cache: [Page_Uptodate(pg)] and the bytes at
    [kmap(pg)]. *)
Record page : Type := mk_page {
  uptodate : bool;
  kaddr : list ascii
}.

(** The inode: [i_size] and the page cache of [i_mapping], where [None] is
    a page that [__find_page_nolock] does not find. *)
Record inode : Type := mk_inode {
  i_size : Z;
  i_mapping : Z -> option page
}.

(** What [dmfs_parse] returns (the table or NULL), with the errors recorded
    and the calls made on the way. *)
Record parse_result : Type := mk_result {
  retval : option dm_table;
  r_errors : list (Z * string);
  r_trace : list event
}.

(** The variables that change in the page loop. *)
Record loop_state : Type := mk_loop {
  l_index : Z;
  l_st : dstate;
  l_lb : linebuf;
  l_num : Z
}.

(** After the loop: [free_page], then [dm_table_complete]. *)
Definition dmfs_parse_finish (st : dstate) : parse_result :=
  let '(rv, t') := dm_table_complete K (table st) in
  if rv =? 0 then
    mk_result (Some t') (errors st)
      (trace st ++ [EvFreePage; EvTableComplete rv])
  else
    mk_result None (errors st)
      (trace st ++ [EvFreePage; EvTableComplete rv; EvPutTable]).

(** The labels [broken] and [parse_error]. *)
Definition dmfs_parse_abort (st : dstate) (msg : string) : parse_result :=
  mk_result None (errors st) (trace st ++ [EvPrintk msg; EvFreePage; EvPutTable]).

(** One pass through the body of the do-while loop of [dmfs_parse]: [inl]
    is the state for the next pass, [inr] the result when the function
    leaves the loop, [None] only if the assembler ran out of fuel. *)
Definition dmfs_parse_body (ino : inode) (end_index end_offset : Z)
  (s : loop_state) : option (loop_state + parse_result) :=
  let index := l_index s in
  let end_ := if index =? end_index then end_offset else PAGE_CACHE_SIZE in
  let next (st : dstate) (lb : linebuf) (num : Z) :=
    let index' := to_ulong (index + 1) in
    if index' =? end_index then inr (dmfs_parse_finish st)
    else inl (mk_loop index' st lb num) in
  match i_mapping ino index with
  | Some pg =>
      if negb (uptodate pg) then
        Some (inr (dmfs_parse_abort (l_st s) "dmfs_parse: Page not uptodate"))
      else
        match dmfs_parse_page (log (l_st s) [EvParsePage index end_])
                (firstn (Z.to_nat end_) (kaddr pg)) (l_lb s) (l_num s) with
        | None => None
        | Some (rv, st', lb', num') =>
            if negb (rv =? 0)
            then Some (inr (dmfs_parse_abort st' "dmfs_parse: Parse error"))
            else Some (next st' lb' num')
        end
  | None => Some (next (l_st s) (l_lb s) (l_num s))
  end.

(** Runs [body] up to [2 ^ n] times: [inl] goes round again, [inr] leaves
    with the result, and [k] takes over after [2 ^ n] rounds. *)
Fixpoint iterate_pow2 {S R : Type} (n : nat) (body : S -> option (S + R))
  (k : S -> option R) (s : S) : option R :=
  match n with
  | O => match body s with
         | Some (inl s') => k s'
         | Some (inr r) => Some r
         | None => None
         end
  | Datatypes.S n' => iterate_pow2 n' body (iterate_pow2 n' body k) s
  end.

(** The loop of [dmfs_parse] from a given state.  [index] is an
    [unsigned long], so the loop leaves after at most [2 ^ BITS_PER_LONG]
    rounds (see [dmfs_parse_total]). *)
Definition dmfs_parse_pages (ino : inode) (end_index end_offset : Z)
  (s : loop_state) : option parse_result :=
  iterate_pow2 (BITS_PER_LONG K) (dmfs_parse_body ino end_index end_offset)
    (fun _ => None) s.

Definition dmfs_parse (ino : inode) : option parse_result :=
  if i_size ino =? 0 then Some (mk_result None [] [])
  else
    match get_free_page K with
    | None => Some (mk_result None [] [EvGetFreePage false])
    | Some scratch =>
        match dm_create_table K with
        | None =>
            Some (mk_result None []
                    [EvGetFreePage true; EvCreateTable false; EvFreePage])
        | Some t =>
            let end_index := to_ulong (Z.shiftr (i_size ino) (PAGE_SHIFT K)) in
            let end_offset := Z.land (i_size ino) (PAGE_CACHE_SIZE - 1) in
            dmfs_parse_pages ino end_index end_offset
              (mk_loop 0
                 (mk_dstate t [] [EvGetFreePage true; EvCreateTable true])
                 (mk_linebuf scratch 0) 0)
        end
    end.

End Parser.

(** ** Input seen as lines *)

(** A piece of text that holds no newline. *)
Definition no_newline (l : list ascii) : bool :=
  forallb (fun c => negb (is_nl c)) l.

(** The bytes of a sequence of newline-terminated lines. *)
Definition lines_bytes (lines : list (list ascii)) : list ascii :=
  flat_map (fun l => l ++ [NL]) lines.

Section Lines.

Context (K : dm_env).

(** The line parser run on the given buffer texts in order, one line
    number each; the parser sees each text as a C string. *)
Fixpoint parse_lines (st : dstate) (num : Z) (texts : list (list ascii))
  : dstate :=
  match texts with
  | [] => st
  | l :: ls => parse_lines (dmfs_parse_line K st num (cstring l)) (num + 1) ls
  end.

(** A line of [l] bytes and its newline, taken into a buffer that already
    holds [fill] bytes, stays short of the last slot but one. *)
Definition line_fits (fill : Z) (l : list ascii) : bool :=
  no_newline l && (fill + Z.of_nat (List.length l) + 1 <? PAGE_SIZE K - 1).

(** The first line continues what the buffer holds, the others start on an
    empty buffer. *)
Definition lines_fit (fill : Z) (lines : list (list ascii)) : bool :=
  match lines with
  | [] => true
  | l :: ls => line_fits fill l && forallb (line_fits 0) ls
  end.

(** The texts that reach the line parser: the first line is joined to the
    [fill] bytes already in the buffer. *)
Definition buffered_lines (lb : linebuf) (lines : list (list ascii))
  : list (list ascii) :=
  match lines with
  | [] => []
  | l :: ls => (firstn (Z.to_nat (tmpl lb)) (tmp lb) ++ l) :: ls
  end.

(** The fill length when the text after the last complete line starts. *)
Definition fill_after (lb : linebuf) (lines : list (list ascii)) : Z :=
  match lines with
  | [] => tmpl lb
  | _ :: _ => 0
  end.

(** The scratch page is one page long and the fill length is inside it. *)
Definition linebuf_ok (lb : linebuf) : Prop :=
  Z.of_nat (List.length (tmp lb)) = PAGE_SIZE K /\ 0 <= tmpl lb.

End Lines.

(** ** The page loop with a plain iteration count *)

(** Runs [body] up to [m] times, then [k]. *)
Fixpoint iterate_fuel {S R : Type} (m : nat) (body : S -> option (S + R))
  (k : S -> option R) (s : S) : option R :=
  match m with
  | O => k s
  | Datatypes.S m' =>
      match body s with
      | Some (inl s') => iterate_fuel m' body k s'
      | Some (inr r) => Some r
      | None => None
      end
  end.

(** The loop of [dmfs_parse] cut off after [m] passes. *)
Definition dmfs_parse_pages_fuel (K : dm_env) (m : nat) (ino : inode)
  (end_index end_offset : Z) (s : loop_state) : option parse_result :=
  iterate_fuel m (dmfs_parse_body K ino end_index end_offset)
    (fun _ => None) s.

(** The value of [end] in the pass at [index]: the length of the chunk
    handed to the assembler. *)
Definition chunk_len (K : dm_env) (ei eo index : Z) : Z :=
  if index =? ei then eo else PAGE_CACHE_SIZE K.

(** The number of passes still to come after the one at [index]. *)
Definition passes_left (K : dm_env) (ei index : Z) : Z :=
  (ei - 1 - index) mod 2 ^ Z.of_nat (BITS_PER_LONG K).

(** The page at [index] is not in the page cache, or is there but not up
    to date. *)
Definition page_unavailable (ino : inode) (index : Z) : bool :=
  match i_mapping ino index with
  | None => true
  | Some pg => negb (uptodate pg)
  end.

(** ** Driving the assembler chunk by chunk *)

(** [dmfs_parse_page] called once per chunk, with the line buffer, the fill
    length and the line counter carried from call to call, and stopping at
    the first call that fails, the way [dmfs_parse] drives it. *)
Fixpoint feed_chunks (K : dm_env) (st : dstate) (lb : linebuf) (num : Z)
  (chunks : list (list ascii)) : option (Z * dstate * linebuf * Z) :=
  match chunks with
  | [] => Some (0, st, lb, num)
  | c :: cs =>
      match dmfs_parse_page K st c lb num with
      | None => None
      | Some (rv, st', lb', num') =>
          if rv =? 0 then feed_chunks K st' lb' num' cs
          else Some (rv, st', lb', num')
      end
  end.

(** The line-parser invocations in a trace: line number and text. *)
Fixpoint parsed_lines (tr : list event) : list (Z * list ascii) :=
  match tr with
  | [] => []
  | EvParseLine num line :: tr' => (num, line) :: parsed_lines tr'
  | _ :: tr' => parsed_lines tr'
  end.

(** The chunks handed to the assembler in a trace: page index and length. *)
Fixpoint parsed_pages (tr : list event) : list (Z * Z) :=
  match tr with
  | [] => []
  | EvParsePage index len :: tr' => (index, len) :: parsed_pages tr'
  | _ :: tr' => parsed_pages tr'
  end.

Definition lines_fed (r : option (Z * dstate * linebuf * Z))
  : list (Z * list ascii) :=
  match r with
  | Some (_, st, _, _) => parsed_lines (trace st)
  | None => []
  end.


(** The same inode with the page at [index] gone from the page cache. *)
Definition without_page (ino : inode) (index : Z) : inode :=
  mk_inode (i_size ino)
    (fun i => if i =? index then None else i_mapping ino i).

(** ** Observations on a parse *)

(** The calls made between two states of one parse. *)
Definition calls_since (st st' : dstate) : list event :=
  skipn (List.length (trace st)) (trace st').

(** The errors recorded between two states of one parse. *)
Definition errors_since (st st' : dstate) : list (Z * string) :=
  skipn (List.length (errors st)) (errors st').

Definition is_ctr (e : event) : bool :=
  match e with EvCtr _ _ _ _ _ => true | _ => false end.

Definition is_put (e : event) : bool :=
  match e with EvPutTargetType _ => true | _ => false end.

(** The registry handle taken by a successful lookup is given back on
    every way out of the line parser. *)
Definition handle_released_on_every_path : Prop :=
  forall (K : dm_env) (st : dstate) (num : Z) (line name : list ascii),
    let st' := dmfs_parse_line K st num line in
    In (EvGetTargetType name true) (calls_since st st') ->
    exists ttype,
      dm_get_target_type K name = Some ttype /\
      In (EvPutTargetType (tt_name ttype)) (calls_since st st').

(** Text without a newline behind the last complete line is neither
    parsed nor an error: the assembler returns 0 in the state reached after
    the complete lines. *)
Definition unterminated_tail_is_silent : Prop :=
  forall (K : dm_env) (st : dstate) (lb : linebuf) (num : Z)
         (lines : list (list ascii)) (tail : list ascii),
    linebuf_ok K lb ->
    lines_fit K (tmpl lb) lines = true ->
    no_newline tail = true ->
    exists lb',
      dmfs_parse_page K st (lines_bytes lines ++ tail) lb num =
      Some (0, parse_lines K st num (buffered_lines lb lines), lb',
            num + Z.of_nat (List.length lines)).


(** A page that is in the page cache but not up to date adds nothing and
    stops nothing: the parse ends as it does without that page. *)
Definition stale_page_is_passed_over : Prop :=
  forall (K : dm_env) (ino : inode) (index : Z) (pg : page),
    i_mapping ino index = Some pg ->
    uptodate pg = false ->
    dmfs_parse K ino = dmfs_parse K (without_page ino index).

(** ** A concrete environment for the examples

    An i386 kernel: 4096-byte pages, 32-bit [unsigned long] and
    [offset_t]. *)

Definition digit_value (c : ascii) : option Z :=
  let n := Z.of_nat (nat_of_ascii c) in
  if (48 <=? n) && (n <=? 57) then Some (n - 48) else None.

Fixpoint strtoul_from (acc : Z) (s : list ascii) : Z :=
  match s with
  | [] => acc
  | c :: s' =>
      match digit_value c with
      | Some d => strtoul_from ((acc * 10 + d) mod 2 ^ 32) s'
      | None => acc
      end
  end.

(** Modelled from the spec: [simple_strtoul] is the kernel's routine, not
    part of this file; the tokens are "base-10 unsigned integers".  It reads
    the leading decimal digits and stops at the first other character. *)
Definition ex_strtoul (s : list ascii) : Z := strtoul_from 0 s.

Definition str (s : string) : list ascii := list_ascii_of_string s.

(** A target type whose constructor always succeeds, and one whose
    constructor always fails. *)
Definition ex_linear : target_type :=
  mk_target_type (str "linear") (fun _ start _ _ => (0, start)).

Definition ex_faulty : target_type :=
  mk_target_type (str "faulty") (fun _ _ _ _ => (-22, 0)).

Definition list_ascii_eqb (a b : list ascii) : bool :=
  if list_eq_dec ascii_dec a b then true else false.

Definition ex_registry (name : list ascii) : option target_type :=
  if list_ascii_eqb name (str "linear") then Some ex_linear
  else if list_ascii_eqb name (str "faulty") then Some ex_faulty
  else None.

(** Modelled from the spec: [dm_table_add_target] lives in another file of
    the repository; the table builder "accumulates validated ranges" and
    counts "targets added". *)
Definition ex_add_target (t : dm_table) (high : Z) (tt : target_type)
  (context : Z) : Z * dm_table :=
  (0, mk_table (num_targets t + 1) (highs t ++ [high])
        (targets t ++ [(tt_name tt, context)])).

(** A table that cannot take another target. *)
Definition ex_add_target_full (t : dm_table) (high : Z) (tt : target_type)
  (context : Z) : Z * dm_table := (-12, t).

(** Modelled from the spec: [dm_table_complete] lives in another file of
    the repository; finalizing "fails if zero ranges were added".  (The
    spec also lets it fail when an error was recorded; the examples that
    record an error only look at the errors.) *)
Definition ex_table_complete (t : dm_table) : Z * dm_table :=
  if num_targets t =? 0 then (-22, t) else (0, t).

Definition ex_empty_table : dm_table := mk_table 0 [] [].

(** The scratch page comes back from the allocator with whatever it held. *)
Definition ex_scratch : list ascii := repeat "#"%char 4096.

Definition ex_env : dm_env :=
  mk_env 12 32 32 ex_strtoul ex_registry ex_add_target ex_table_complete
    (Some ex_scratch) (Some ex_empty_table).

Definition ex_env_full : dm_env :=
  mk_env 12 32 32 ex_strtoul ex_registry ex_add_target_full ex_table_complete
    (Some ex_scratch) (Some ex_empty_table).

Definition ex_st0 : dstate := mk_dstate ex_empty_table [] [].

(** ** Example inputs *)

(** The text [s] padded with spaces to [n - 1] bytes, and the line of [n]
    bytes that it makes with its newline. *)
Definition padded (s : string) (n : nat) : list ascii :=
  str s ++ repeat SPACE (n - 1 - List.length (str s)).

Definition pad_line (s : string) (n : nat) : list ascii :=
  padded s n ++ [NL].

Definition ex_page_two_lines : list ascii :=
  pad_line "0 100 linear /dev/x" 2048 ++ pad_line "100 50 linear /dev/y" 2048.

Definition ex_page_third_line : list ascii :=
  str "150 10 linear /dev/z" ++ [NL] ++ repeat NUL 4075.

(** One full page and 21 more bytes: a third line on the second page. *)
Definition ex_ino_short_last : inode :=
  mk_inode 4117
    (fun i => if i =? 0 then Some (mk_page true ex_page_two_lines)
              else if i =? 1 then Some (mk_page true ex_page_third_line)
              else None).

(** Two pages, the first one in the page cache but not up to date. *)
Definition ex_stale_page : page := mk_page false (repeat NUL 4096).

Definition ex_ino_stale : inode :=
  mk_inode 8192
    (fun i => if i =? 0 then Some ex_stale_page
              else if i =? 1 then Some (mk_page true ex_page_two_lines)
              else None).

(** One page that holds a line of 4095 characters and its newline. *)
Definition ex_long_line : list ascii := repeat "a"%char 4095.

Definition ex_ino_long : inode :=
  mk_inode 4096
    (fun i => if i =? 0 then Some (mk_page true (ex_long_line ++ [NL]))
              else None).

Definition ex_ino_empty : inode := mk_inode 0 (fun _ => None).

(** One page: two lines, then "150 10 " without a newline. *)
Definition ex_page_tail : list ascii :=
  pad_line "0 100 linear /dev/x" 2048 ++ pad_line "100 50 linear /dev/y" 2041
  ++ str "150 10 ".

Definition ex_ino_tail : inode :=
  mk_inode 4096
    (fun i => if i =? 0 then Some (mk_page true ex_page_tail) else None).

(** A table file of the given text, shorter than a page: the text sits at
    the start of page 0, the rest of the page is zero, and no other page is
    in the page cache. *)
Definition small_file (text : list ascii) : inode :=
  mk_inode (Z.of_nat (List.length text))
    (fun i =>
       if i =? 0
       then Some (mk_page true (text ++ repeat NUL (4096 - List.length text)))
       else None).

Definition ex_two_ranges : list (list ascii) :=
  [str "0 100 linear /dev/x 0"; str "100 50 linear /dev/y 0"].

Definition ex_gap : list (list ascii) :=
  [str "0 100 linear /dev/x 0"; str "50 10 linear /dev/y 0"].

Definition ex_bogus : list (list ascii) := [str "0 100 bogus"].

(** The state of [dmfs_parse] when it enters its loop. *)
Definition ex_loop0 : loop_state :=
  mk_loop 0
    (mk_dstate ex_empty_table [] [EvGetFreePage true; EvCreateTable true])
    (mk_linebuf ex_scratch 0) 0.

(** What a parse returned, which errors it recorded, which chunks it handed
    to the assembler, and the numbers of the lines it parsed. *)
Definition summary (r : option parse_result)
  : option (option dm_table * list (Z * string) * list (Z * Z) * list Z) :=
  option_map
    (fun r => (retval r, r_errors r, parsed_pages (r_trace r),
               map fst (parsed_lines (r_trace r)))) r.

(** The line "0 100 linear /dev/x 0" in one chunk and cut into three. *)
Definition ex_one_chunk : list (list ascii) :=
  [str "0 100 linear /dev/x 0" ++ [NL]].

Definition ex_three_chunks : list (list ascii) :=
  [str "0 10"; str "0 li"; str "near /dev/x 0" ++ [NL]].

Definition ex_linebuf : linebuf := mk_linebuf ex_scratch 0.


(** ** Further notions: text and tokens *)

(** Text made of delimiters only (the empty text included), and text that
    holds no delimiter. *)
Definition all_delims (s : list ascii) : bool := forallb is_delim s.

Definition no_delim (s : list ascii) : bool :=
  forallb (fun c => negb (is_delim c)) s.

(** What follows a token in the text: nothing, when the cursor is left
    null, or one delimiter and the text the cursor is left on. *)
Definition after_token (d : ascii) (rest : cursor) : list ascii :=
  match rest with
  | None => []
  | Some r => d :: r
  end.

(** The messages that [dmfs_parse_line] can record. *)
Definition line_messages : list string :=
  ["No start argument"; "No size argument"; "Gap in table";
   "No target type"; "Target type unknown";
   "This message should never appear (constructor error)";
   "Error adding target to table"]%string.

Definition is_added (e : event) : bool :=
  match e with EvAddTarget _ _ _ rv => rv =? 0 | _ => false end.

(** The line numbers [from], [from + 1], ... ([n] of them). *)
Fixpoint zrange (from : Z) (n : nat) : list Z :=
  match n with
  | O => []
  | S n' => from :: zrange (from + 1) n'
  end.

(** The calls of [dmfs_parse] that take or give back the scratch page
    ([__get_free_page], [free_page]) and the table ([dm_create_table],
    [dm_table_complete], [dm_put_table]).  The references on the pages of
    the page cache ([page_cache_get], [page_cache_release]) are not events
    of the trace; [dmfs_parse_body_refs] below gives them. *)
Definition is_lifecycle (e : event) : bool :=
  match e with
  | EvGetFreePage _ | EvFreePage | EvCreateTable _ | EvPutTable
  | EvTableComplete _ => true
  | _ => false
  end.

(** ** The address-space operations *)

(** A page as the address-space operations see it: the flags
    [PG_uptodate], [PG_dirty] and [PG_locked], the bytes behind [kmap], the
    number of [kmap]s not yet undone, and [page->index]. *)
Record vm_page : Type := mk_vm_page {
  vp_page : page;
  vp_dirty : bool;
  vp_locked : bool;
  vp_kmaps : Z;
  vp_index : Z
}.

Section AddressSpace.

Context (K : dm_env).

(** [memset(addr, 0, PAGE_CACHE_SIZE)] *)
Definition zero_page : list ascii := repeat NUL (Z.to_nat (PAGE_CACHE_SIZE K)).

(** [dmfs_readpage]: the [kmap] and [kunmap] inside the branch cancel out. *)
Definition dmfs_readpage (p : vm_page) : Z * vm_page :=
  let pg :=
    if negb (uptodate (vp_page p)) then mk_page true zero_page
    else vp_page p in
  (0, mk_vm_page pg (vp_dirty p) false (vp_kmaps p) (vp_index p)).

(** [dmfs_writepage] *)
Definition dmfs_writepage (p : vm_page) : Z * vm_page :=
  (0, mk_vm_page (vp_page p) true false (vp_kmaps p) (vp_index p)).

(** [dmfs_prepare_write]: the page stays mapped when the function
    returns. *)
Definition dmfs_prepare_write (p : vm_page) (offset to : Z) : Z * vm_page :=
  let pg :=
    if negb (uptodate (vp_page p)) then mk_page true zero_page
    else vp_page p in
  (0, mk_vm_page pg true (vp_locked p) (vp_kmaps p + 1) (vp_index p)).

(** Storing into a [loff_t], a signed 64-bit integer. *)
Definition to_loff (z : Z) : Z := (z + 2 ^ 63) mod 2 ^ 64 - 2 ^ 63.

(** [dmfs_commit_write] on a page of an inode of size [size]: the result,
    the page and the new [i_size]. *)
Definition dmfs_commit_write (p : vm_page) (size : Z) (offset to : Z)
  : Z * vm_page * Z :=
  let pos := to_loff (Z.shiftl (vp_index p) (PAGE_SHIFT K) + to) in
  let p' :=
    mk_vm_page (vp_page p) (vp_dirty p) (vp_locked p) (vp_kmaps p - 1)
      (vp_index p) in
  (0, p', if size <? pos then pos else size).

End AddressSpace.

(** ** Closing the table file *)

(** [S_IWUGO] is [S_IWUSR | S_IWGRP | S_IWOTH], octal 0222. *)
Definition S_IWUGO : Z := 146.

(** What [dmfs_release] does, in order: [down], the call of [dmfs_parse]
    with its result, the [dm_put_table] of the table it replaces, [up]. *)
Inductive release_event : Type :=
| RelDown
| RelParse (r : parse_result)
| RelPutTable (old : dm_table)
| RelUp.

Record release_result : Type := mk_release {
  rel_retval : Z;
  rel_table : option dm_table;
  rel_events : list release_event
}.

(** [dmfs_release(inode, f)], with [dmi->table] before the call given as
    [active]; [None] only if [dmfs_parse] ran out of fuel. *)
Definition dmfs_release (K : dm_env) (f_mode : Z) (ino : inode)
  (active : option dm_table) : option release_result :=
  if Z.land f_mode S_IWUGO =? 0 then Some (mk_release 0 active [])
  else
    match dmfs_parse K ino with
    | None => None
    | Some r =>
        match retval r with
        | Some t =>
            Some (mk_release 0 (Some t)
                    ([RelDown; RelParse r] ++
                     match active with
                     | Some old => [RelPutTable old]
                     | None => []
                     end ++ [RelUp]))
        | None => Some (mk_release 0 active [RelDown; RelParse r; RelUp])
        end
    end.

(** ** The references on the pages of the page cache *)

(** [page_cache_get(pg)] and [page_cache_release(pg)] in the loop of
    [dmfs_parse], with the index of the page; [None] is a call with
    [pg == NULL]. *)
Inductive page_ref_call : Type :=
| PageCacheGet (index : Z)
| PageCacheRelease (pg : option Z).

(** The reference calls of one pass through the body of the loop:
    [page_cache_get] when [__find_page_nolock] found the page;
    [goto broken] and [goto parse_error] leave the loop before the
    [page_cache_release(pg)] at the end of the body, which every other
    pass reaches, with [pg == NULL] when the page was not found. *)
Definition dmfs_parse_body_refs (K : dm_env) (ino : inode)
  (end_index end_offset : Z) (s : loop_state) : list page_ref_call :=
  let index := l_index s in
  let end_ := if index =? end_index then end_offset else PAGE_CACHE_SIZE K in
  match i_mapping ino index with
  | Some pg =>
      PageCacheGet index ::
      if negb (uptodate pg) then []
      else
        match dmfs_parse_page K (log (l_st s) [EvParsePage index end_])
                (firstn (Z.to_nat end_) (kaddr pg)) (l_lb s) (l_num s) with
        | Some (rv, _, _, _) =>
            if negb (rv =? 0) then [] else [PageCacheRelease (Some index)]
        | None => []
        end
  | None => [PageCacheRelease None]
  end.

(** One pass through the body of the loop, with its reference calls added
    to those made so far. *)
Definition dmfs_parse_body_pc (K : dm_env) (ino : inode)
  (end_index end_offset : Z) (sp : loop_state * list page_ref_call)
  : option ((loop_state * list page_ref_call) +
            (parse_result * list page_ref_call)) :=
  let '(s, calls) := sp in
  let calls' := calls ++ dmfs_parse_body_refs K ino end_index end_offset s in
  match dmfs_parse_body K ino end_index end_offset s with
  | Some (inl s') => Some (inl (s', calls'))
  | Some (inr r) => Some (inr (r, calls'))
  | None => None
  end.

(** [dmfs_parse] with the reference calls of its loop; no such call is
    made before the loop or after it. *)
Definition dmfs_parse_pc (K : dm_env) (ino : inode)
  : option (parse_result * list page_ref_call) :=
  if i_size ino =? 0 then Some (mk_result None [] [], [])
  else
    match get_free_page K with
    | None => Some (mk_result None [] [EvGetFreePage false], [])
    | Some scratch =>
        match dm_create_table K with
        | None =>
            Some (mk_result None []
                    [EvGetFreePage true; EvCreateTable false; EvFreePage],
                  [])
        | Some t =>
            let end_index := to_ulong K (Z.shiftr (i_size ino) (PAGE_SHIFT K)) in
            let end_offset := Z.land (i_size ino) (PAGE_CACHE_SIZE K - 1) in
            iterate_pow2 (BITS_PER_LONG K)
              (dmfs_parse_body_pc K ino end_index end_offset)
              (fun _ => None)
              (mk_loop 0
                 (mk_dstate t [] [EvGetFreePage true; EvCreateTable true])
                 (mk_linebuf scratch 0) 0, [])
        end
    end.

(** Every [page_cache_get] is followed at once by the
    [page_cache_release] of the same page, and every other release is one
    of NULL. *)
Fixpoint refs_balanced (calls : list page_ref_call) : bool :=
  match calls with
  | [] => true
  | PageCacheGet i :: PageCacheRelease (Some j) :: calls' =>
      (i =? j) && refs_balanced calls'
  | PageCacheRelease None :: calls' => refs_balanced calls'
  | _ => false
  end.

(** The [printk] calls: [dmfs_parse] prints only at its labels [broken]
    and [parse_error]. *)
Definition is_printk (e : event) : bool :=
  match e with EvPrintk _ => true | _ => false end.

(** ** Further example inputs *)

(** Two pages, the first one full of the letter "a". *)
Definition ex_ino_plain : inode :=
  mk_inode 8192
    (fun i => if i =? 0 then Some (mk_page true (repeat "a"%char 4096))
              else None).

(** A short file: two lines and then "150 10" without a newline. *)
Definition ex_ino_short : inode :=
  small_file (lines_bytes ex_two_ranges ++ str "150 10").

(** A page that was never read. *)
Definition ex_vm_page : vm_page :=
  mk_vm_page (mk_page false (repeat "#"%char 4096)) false true 0 3.

(** * Properties *)

(** ** The tokenizer *)

(** [next_token] satisfies the equation of its do-while loop: take a token
    with [strsep], and go round again when it is not null and empty. *)
Lemma next_token_loop_eq (p : cursor) :
  next_token p =
  let '(r, p') := strsep p in
  match r with
  | Some [] => next_token p'
  | _ => (r, p')
  end.
Proof.
  destruct p as [s|]; [|reflexivity].
  destruct s as [|c s]; [reflexivity|].
  simpl. destruct (is_delim c) eqn:Hc; [reflexivity|].
  destruct (strsep_split s) as [tok rest]. reflexivity.
Qed.

(** A token that [next_token] returns is never empty. *)
Lemma next_token_nonempty (p p' : cursor) (tok : list ascii) :
  next_token p = (Some tok, p') -> tok <> [].
Proof.
  destruct p as [s|]; [|discriminate]. simpl.
  induction s as [|c s IH]; simpl; [discriminate|].
  destruct (is_delim c) eqn:Hc; [exact IH|].
  destruct (strsep_split s) as [t r].
  intros H; inversion H; discriminate.
Qed.

(** ** The line parser *)

Lemma skipn_length_app {A : Type} (l l' : list A) :
  skipn (List.length l) (l ++ l') = l'.
Proof. induction l; simpl; auto. Qed.

Ltac break_line :=
  repeat match goal with
  | |- context [match ?x with _ => _ end] => destruct x eqn:?
  | |- context [if ?x then _ else _] => destruct x eqn:?
  end.

Section LineParser.

Context (K : dm_env).

(** The line parser only reads the table of the state it is given: it
    appends to the errors and to the trace. *)
Lemma dmfs_parse_line_frame (st : dstate) (num : Z) (line : list ascii) :
  let r := dmfs_parse_line K (mk_dstate (table st) [] []) num line in
  dmfs_parse_line K st num line =
  mk_dstate (table r) (errors st ++ errors r) (trace st ++ trace r).
Proof.
  unfold dmfs_parse_line, dmfs_add_error, log, set_table; simpl.
  break_line; simpl; rewrite ?app_nil_r, <- ?app_assoc; reflexivity.
Qed.

Lemma calls_since_parse_line (st : dstate) (num : Z) (line : list ascii) :
  calls_since st (dmfs_parse_line K st num line) =
  trace (dmfs_parse_line K (mk_dstate (table st) [] []) num line).
Proof.
  unfold calls_since. rewrite dmfs_parse_line_frame. simpl.
  apply skipn_length_app.
Qed.

Lemma errors_since_parse_line (st : dstate) (num : Z) (line : list ascii) :
  errors_since st (dmfs_parse_line K st num line) =
  errors (dmfs_parse_line K (mk_dstate (table st) [] []) num line).
Proof.
  unfold errors_since. rewrite dmfs_parse_line_frame. simpl.
  apply skipn_length_app.
Qed.

Lemma table_parse_line (st : dstate) (num : Z) (line : list ascii) :
  table (dmfs_parse_line K st num line) =
  table (dmfs_parse_line K (mk_dstate (table st) [] []) num line).
Proof. rewrite dmfs_parse_line_frame. reflexivity. Qed.

(** Reduces a statement about one call of the line parser to its paths. *)
Ltac line_cases :=
  rewrite ?calls_since_parse_line, ?errors_since_parse_line;
  try rewrite table_parse_line;
  unfold dmfs_parse_line, dmfs_add_error, log, set_table; simpl;
  break_line; simpl.

Ltac in_cases H :=
  simpl in H;
  repeat match type of H with
  | _ \/ _ => destruct H as [H|H]
  | False => destruct H
  end;
  try discriminate H.

(** C7.  When the registry lookup of a line returns no handle
    ([dm_get_target_type] is called for the line's third token [name] and
    returns NULL), the line parser records exactly the error
    "Target type unknown" for that line number, calls no target
    constructor for the line, and leaves the table as it was. *)
Theorem unknown_target_type_no_constructor (st : dstate) (num : Z)
  (line name : list ascii) :
  let st' := dmfs_parse_line K st num line in
  In (EvGetTargetType name false) (calls_since st st') ->
  errors_since st st' = [(num, "Target type unknown"%string)] /\
  filter is_ctr (calls_since st st') = [] /\
  table st' = table st /\
  dm_get_target_type K name = None /\
  exists tok1 p1 tok2 p2 p3,
    next_token (Some line) = (Some tok1, p1) /\
    next_token p1 = (Some tok2, p2) /\
    next_token p2 = (Some name, p3).
Proof.
  cbv zeta.
  line_cases; intros H; in_cases H.
  inversion H; subst.
  repeat split; auto.
  do 5 eexists; repeat split; eauto.
Qed.

(** C6.  When the append of a line's target fails
    ([dm_table_add_target] is called and returns non-zero, which only
    happens after the constructor returned 0), the line parser calls the
    destructor of the same target type on the context just built, directly
    after the failed append, and records exactly the error
    "Error adding target to table" for that line number.  The append was
    made with [high = start + (size - 1)] in [offset_t] arithmetic. *)
Theorem append_failure_destructs_context (st : dstate) (num : Z)
  (line name : list ascii) (high context rv : Z) :
  let st' := dmfs_parse_line K st num line in
  In (EvAddTarget high name context rv) (calls_since st st') ->
  rv <> 0 ->
  errors_since st st' = [(num, "Error adding target to table"%string)] /\
  exists tok3 start size args ttype,
    dm_get_target_type K tok3 = Some ttype /\
    name = tt_name ttype /\
    ctr ttype (table st) start size args = (0, context) /\
    high = to_offset K (start + (size - 1)) /\
    fst (dm_table_add_target K (table st) high ttype context) = rv /\
    calls_since st st' =
      [EvParseLine num line; EvGetTargetType tok3 true;
       EvCtr name start size args 0;
       EvAddTarget high name context rv;
       EvDtr name context; EvPutTargetType name].
Proof.
  cbv zeta.
  line_cases; intros H Hrv; in_cases H; inversion H; subst.
  - apply Z.eqb_eq in Heqb1. contradiction.
  - apply Z.eqb_eq in Heqb0. subst. split; [reflexivity|].
    do 5 eexists. repeat split; eauto.
    rewrite Heqp3. reflexivity.
Qed.

(** C5 (amended).  When the registry lookup of a line succeeds, the line
    parser gives the handle back with [dm_put_target_type] as its last
    call on both paths that record an error (the constructor failed, or
    the append failed and the context was destructed); on the path that
    adds the target and records no error it does not give the handle back,
    and its last call is the successful append. *)
Theorem handle_released_on_error_paths (st : dstate) (num : Z)
  (line name : list ascii) :
  let st' := dmfs_parse_line K st num line in
  let calls := calls_since st st' in
  In (EvGetTargetType name true) calls ->
  exists ttype,
    dm_get_target_type K name = Some ttype /\
    ((errors_since st st' = [] /\
      filter is_put calls = [] /\
      exists pre high context,
        calls = pre ++ [EvAddTarget high (tt_name ttype) context 0])
     \/
     (exists msg pre,
        errors_since st st' = [(num, msg)] /\
        (msg = "Error adding target to table"%string \/
         msg = "This message should never appear (constructor error)"%string) /\
        calls = pre ++ [EvPutTargetType (tt_name ttype)] /\
        filter is_put pre = [])).
Proof.
  cbv zeta.
  line_cases; intros H; in_cases H; inversion H; subst;
    eexists; (split; [eassumption|]).
  - left. apply Z.eqb_eq in Heqb1; subst.
    repeat split; auto.
    eexists [_; _; _]; simpl; eauto.
  - right. do 2 eexists. split; [reflexivity|]. split; [auto|].
    split; [|shelve].
    instantiate (1 := [_; _; _; _; _]). reflexivity.
    Unshelve. reflexivity.
  - right. do 2 eexists. split; [reflexivity|]. split; [auto|].
    split; [|shelve].
    instantiate (1 := [_; _; _]). reflexivity.
    Unshelve. reflexivity.
Qed.

End LineParser.

(** ** The copy loop *)

Lemma store_nat_length (dst : list ascii) (pos : nat) (c : ascii) :
  List.length (store_nat dst pos c) = List.length dst.
Proof.
  revert pos; induction dst as [|d dst IH]; intros [|pos]; simpl; auto.
Qed.

Lemma store_length (dst : list ascii) (pos : Z) (c : ascii) :
  List.length (store dst pos c) = List.length dst.
Proof.
  unfold store. destruct (pos <? 0); auto using store_nat_length.
Qed.

(** A store right behind a prefix [pre] of the buffer. *)
Lemma store_after_prefix (pre old : list ascii) (o c : ascii) :
  store (pre ++ o :: old) (Z.of_nat (List.length pre)) c = pre ++ c :: old.
Proof.
  unfold store.
  destruct (Z.ltb_spec (Z.of_nat (List.length pre)) 0) as [Hneg|_]; [lia|].
  rewrite Nat2Z.id.
  induction pre as [|p pre IH]; simpl; [reflexivity|].
  now rewrite IH.
Qed.

Lemma dmfs_copy_buffer_length (src : list ascii) :
  forall dst pos dstlen copied flag dst',
    dmfs_copy dst pos dstlen src = (copied, flag, dst') ->
    List.length dst' = List.length dst.
Proof.
  induction src as [|c src IH]; simpl; intros dst pos dstlen copied flag dst' H.
  - inversion H; reflexivity.
  - destruct (dstlen =? 0); [inversion H; reflexivity|].
    destruct (is_nl c).
    + inversion H. apply store_length.
    + destruct (dmfs_copy (store dst pos c) (pos + 1) (dstlen - 1) src)
        as [[n f] d] eqn:Hrec.
      injection H as <- <- <-. apply IH in Hrec.
      now rewrite Hrec, store_length.
Qed.

(** [copied] counts bytes of the source. *)
Lemma dmfs_copy_copied_bounds (src : list ascii) :
  forall dst pos dstlen copied flag dst',
    dmfs_copy dst pos dstlen src = (copied, flag, dst') ->
    0 <= copied <= Z.of_nat (List.length src).
Proof.
  induction src as [|c src IH]; cbn [dmfs_copy List.length]; intros dst pos dstlen copied flag dst' H.
  - inversion H; lia.
  - destruct (dstlen =? 0); [inversion H; lia|].
    destruct (is_nl c); [inversion H; lia|].
    destruct (dmfs_copy (store dst pos c) (pos + 1) (dstlen - 1) src)
      as [[n f] d] eqn:Hrec.
    injection H as <- <- <-. apply IH in Hrec. lia.
Qed.

(** With room in the buffer and bytes to read, at least one byte is
    taken. *)
Lemma dmfs_copy_progress (src dst : list ascii) (pos dstlen copied : Z)
  (flag : bool) (dst' : list ascii) :
  dmfs_copy dst pos dstlen src = (copied, flag, dst') ->
  dstlen <> 0 -> src <> [] -> 1 <= copied.
Proof.
  destruct src as [|c src]; [congruence|]. simpl. intros H Hd _.
  destruct (dstlen =? 0) eqn:E; [apply Z.eqb_eq in E; contradiction|].
  destruct (is_nl c); [inversion H; lia|].
  destruct (dmfs_copy (store dst pos c) (pos + 1) (dstlen - 1) src)
    as [[n f] d] eqn:Hrec.
  injection H as <- <- <-. apply dmfs_copy_copied_bounds in Hrec. lia.
Qed.

Lemma dmfs_copy_no_room (src dst : list ascii) (pos : Z) :
  dmfs_copy dst pos 0 src = (0, false, dst).
Proof. destruct src; reflexivity. Qed.




Section Assembler.

Context (K : dm_env).

(** An iteration of [dmfs_parse_page] that goes round again has taken at
    least one byte. *)
Lemma dmfs_parse_page_shrinks (buf : list ascii) (lb : linebuf)
  (copied : Z) (flag : bool) (tmp' : list ascii) :
  dmfs_copy (tmp lb) (tmpl lb) (PAGE_SIZE K - tmpl lb - 1) buf
    = (copied, flag, tmp') ->
  (tmpl lb + copied =? PAGE_SIZE K - 1) = false ->
  (0 <? Z.of_nat (List.length (skipn (Z.to_nat copied) buf))) = true ->
  (List.length (skipn (Z.to_nat copied) buf) < List.length buf)%nat.
Proof.
  intros Hc Hov Hlen.
  apply Z.eqb_neq in Hov. apply Z.ltb_lt in Hlen.
  assert (Hd : PAGE_SIZE K - tmpl lb - 1 <> 0).
  { intros E. rewrite E, dmfs_copy_no_room in Hc. inversion Hc; subst. lia. }
  assert (Hb : buf <> []).
  { intros E; subst. rewrite skipn_nil in Hlen. simpl in Hlen. lia. }
  pose proof (dmfs_copy_progress _ _ _ _ _ _ _ Hc Hd Hb).
  rewrite length_skipn in *. lia.
Qed.

(** The result of the loop does not depend on the fuel, once there is more
    fuel than bytes. *)
Lemma dmfs_parse_page_loop_fuel (f1 : nat) :
  forall f2 st buf lb num,
    (List.length buf < f1)%nat -> (List.length buf < f2)%nat ->
    dmfs_parse_page_loop K f1 st buf lb num =
    dmfs_parse_page_loop K f2 st buf lb num.
Proof.
  induction f1 as [|f1 IH]; intros f2 st buf lb num H1 H2; [lia|].
  destruct f2 as [|f2]; [lia|]. simpl.
  destruct (dmfs_copy (tmp lb) (tmpl lb) (PAGE_SIZE K - tmpl lb - 1) buf)
    as [[copied flag] tmp'] eqn:Hc.
  destruct (tmpl lb + copied =? PAGE_SIZE K - 1) eqn:Hov; [reflexivity|].
  destruct (0 <? Z.of_nat (List.length (skipn (Z.to_nat copied) buf)))
    eqn:Hlen.
  - pose proof (dmfs_parse_page_shrinks _ _ _ _ _ Hc Hov Hlen).
    destruct flag; apply IH; lia.
  - destruct flag; reflexivity.
Qed.

(** The loop of [dmfs_parse_page] ends: it returns for every input. *)
Lemma dmfs_parse_page_loop_total (f : nat) :
  forall st buf lb num,
    (List.length buf < f)%nat ->
    exists r, dmfs_parse_page_loop K f st buf lb num = Some r.
Proof.
  induction f as [|f IH]; intros st buf lb num H; [lia|]. simpl.
  destruct (dmfs_copy (tmp lb) (tmpl lb) (PAGE_SIZE K - tmpl lb - 1) buf)
    as [[copied flag] tmp'] eqn:Hc.
  destruct (tmpl lb + copied =? PAGE_SIZE K - 1) eqn:Hov; [eauto|].
  destruct (0 <? Z.of_nat (List.length (skipn (Z.to_nat copied) buf)))
    eqn:Hlen.
  - pose proof (dmfs_parse_page_shrinks _ _ _ _ _ Hc Hov Hlen).
    destruct flag; apply IH; lia.
  - destruct flag; eauto.
Qed.

Lemma dmfs_parse_page_total (st : dstate) (buf : list ascii) (lb : linebuf)
  (num : Z) :
  exists r, dmfs_parse_page K st buf lb num = Some r.
Proof. apply dmfs_parse_page_loop_total. lia. Qed.

(** [dmfs_parse_page] satisfies the equation of its do-while loop. *)
Lemma dmfs_parse_page_eq (st : dstate) (buf : list ascii) (lb : linebuf)
  (num : Z) :
  dmfs_parse_page K st buf lb num =
  let '(copied, flag, tmp') :=
    dmfs_copy (tmp lb) (tmpl lb) (PAGE_SIZE K - tmpl lb - 1) buf in
  let buf' := skipn (Z.to_nat copied) buf in
  if tmpl lb + copied =? PAGE_SIZE K - 1 then
    Some (-1, dmfs_add_error st num "Line too long",
          mk_linebuf tmp' (tmpl lb), num)
  else
    let '(st1, lb1, num1) :=
      if flag
      then (dmfs_parse_line K st num (cstring tmp'), mk_linebuf tmp' 0, num + 1)
      else (st, mk_linebuf tmp' copied, num) in
    if 0 <? Z.of_nat (List.length buf') then
      dmfs_parse_page K st1 buf' lb1 num1
    else Some (0, st1, lb1, num1).
Proof.
  unfold dmfs_parse_page at 1. cbn [dmfs_parse_page_loop].
  destruct (dmfs_copy (tmp lb) (tmpl lb) (PAGE_SIZE K - tmpl lb - 1) buf)
    as [[copied flag] tmp'] eqn:Hc.
  cbv zeta.
  destruct (tmpl lb + copied =? PAGE_SIZE K - 1) eqn:Hov; [reflexivity|].
  destruct (0 <? Z.of_nat (List.length (skipn (Z.to_nat copied) buf)))
    eqn:Hlen.
  - pose proof (dmfs_parse_page_shrinks _ _ _ _ _ Hc Hov Hlen).
    destruct flag; apply dmfs_parse_page_loop_fuel; lia.
  - destruct flag; reflexivity.
Qed.

End Assembler.

(** ** Whole lines through the copy loop *)

Lemma cstring_app_nul (a b : list ascii) :
  cstring (a ++ NUL :: b) = cstring a.
Proof.
  induction a as [|c a IH]; simpl; [reflexivity|].
  destruct (Ascii.eqb c NUL); [reflexivity|]. now rewrite IH.
Qed.

Lemma no_newline_cons (c : ascii) (l : list ascii) :
  no_newline (c :: l) = true -> is_nl c = false /\ no_newline l = true.
Proof.
  unfold no_newline; simpl. intros H. apply andb_true_iff in H.
  destruct H as [H1 H2]. split; [|assumption].
  now destruct (is_nl c).
Qed.

(** One pass through the loop of [dmfs_copy] on a byte [c] that is not a
    newline, written behind the prefix [pre]: afterwards the prefix is
    [pre ++ [c]]. *)
Ltac copy_one_byte Hc Hold :=
  cbn [app dmfs_copy List.length] in *;
  match goal with
  | |- context [?dstlen =? 0] =>
      destruct (Z.eqb_spec dstlen 0) as [?|_]; [lia|]
  end;
  rewrite Hc;
  match goal with
  | |- context [store (?pre ++ ?old) _ ?c] =>
      destruct old as [|? old]; [simpl in Hold; lia|];
      rewrite store_after_prefix;
      match goal with
      | |- context [pre ++ c :: ?old'] =>
          replace (pre ++ c :: old') with ((pre ++ [c]) ++ old')
            by (rewrite <- app_assoc; reflexivity)
      end;
      replace (Z.of_nat (List.length pre) + 1)
        with (Z.of_nat (List.length (pre ++ [c])))
        by (rewrite length_app; simpl; lia)
  end.

(** A line with its newline, written behind the prefix [pre]: the newline
    is counted and stored as NUL. *)
Lemma dmfs_copy_line (l : list ascii) :
  forall pre old dstlen rest,
    no_newline l = true ->
    Z.of_nat (List.length l) < dstlen ->
    (List.length l < List.length old)%nat ->
    dmfs_copy (pre ++ old) (Z.of_nat (List.length pre)) dstlen
      (l ++ NL :: rest)
    = (Z.of_nat (List.length l) + 1, true,
       pre ++ l ++ NUL :: skipn (S (List.length l)) old).
Proof.
  induction l as [|c l IH]; intros pre old dstlen rest Hnl Hd Hold.
  - cbn [app dmfs_copy List.length] in *.
    destruct (Z.eqb_spec dstlen 0) as [E|_]; [lia|].
    destruct old as [|o old]; [simpl in Hold; lia|].
    change (is_nl NL) with true. cbv iota.
    now rewrite store_after_prefix.
  - apply no_newline_cons in Hnl. destruct Hnl as [Hc Hnl].
    copy_one_byte Hc Hold.
    rewrite (IH (pre ++ [c]) old (dstlen - 1) rest Hnl)
      by (simpl in Hold; lia).
    rewrite <- app_assoc. cbn [app skipn].
    f_equal. f_equal. lia.
Qed.

(** Text without a newline that ends before the room does. *)
Lemma dmfs_copy_tail (a : list ascii) :
  forall pre old dstlen,
    no_newline a = true ->
    Z.of_nat (List.length a) <= dstlen ->
    (List.length a <= List.length old)%nat ->
    dmfs_copy (pre ++ old) (Z.of_nat (List.length pre)) dstlen a
    = (Z.of_nat (List.length a), false, pre ++ a ++ skipn (List.length a) old).
Proof.
  induction a as [|c a IH]; intros pre old dstlen Hnl Hd Hold.
  - reflexivity.
  - apply no_newline_cons in Hnl. destruct Hnl as [Hc Hnl].
    copy_one_byte Hc Hold.
    rewrite (IH (pre ++ [c]) old (dstlen - 1) Hnl)
      by (simpl in Hold; lia).
    rewrite <- app_assoc. cbn [app skipn].
    f_equal. f_equal. lia.
Qed.

(** Text without a newline that uses up the room: what follows it in the
    source is not read. *)
Lemma dmfs_copy_fill (a : list ascii) :
  forall pre old dstlen rest,
    no_newline a = true ->
    Z.of_nat (List.length a) = dstlen ->
    (List.length a <= List.length old)%nat ->
    dmfs_copy (pre ++ old) (Z.of_nat (List.length pre)) dstlen (a ++ rest)
    = (dstlen, false, pre ++ a ++ skipn (List.length a) old).
Proof.
  induction a as [|c a IH]; intros pre old dstlen rest Hnl Hd Hold.
  - cbn [app List.length] in *. subst dstlen. simpl Z.of_nat.
    now rewrite dmfs_copy_no_room.
  - apply no_newline_cons in Hnl. destruct Hnl as [Hc Hnl].
    copy_one_byte Hc Hold.
    rewrite (IH (pre ++ [c]) old (dstlen - 1) rest Hnl)
      by (simpl in Hold; lia).
    rewrite <- app_assoc. cbn [app skipn].
    f_equal. f_equal. lia.
Qed.

(** ** Whole lines through the assembler *)

Section AssemblerLines.

Context (K : dm_env).

(** The buffer splits at the fill length. *)
Lemma linebuf_split (lb : linebuf) :
  linebuf_ok K lb -> tmpl lb <= PAGE_SIZE K ->
  let pre := firstn (Z.to_nat (tmpl lb)) (tmp lb) in
  let old := skipn (Z.to_nat (tmpl lb)) (tmp lb) in
  tmp lb = pre ++ old /\
  Z.of_nat (List.length pre) = tmpl lb /\
  Z.of_nat (List.length old) = PAGE_SIZE K - tmpl lb.
Proof.
  intros [Hlen Hpos] Hle pre old. subst pre old.
  rewrite firstn_skipn, length_firstn, length_skipn.
  repeat split; lia.
Qed.

Lemma line_fits_spec (fill : Z) (l : list ascii) :
  line_fits K fill l = true ->
  no_newline l = true /\ fill + Z.of_nat (List.length l) + 1 < PAGE_SIZE K - 1.
Proof.
  unfold line_fits. intros H. apply andb_true_iff in H.
  destruct H as [H1 H2]. apply Z.ltb_lt in H2. auto.
Qed.

Lemma skipn_line (l rest : list ascii) :
  skipn (Z.to_nat (Z.of_nat (List.length l) + 1)) (l ++ NL :: rest) = rest.
Proof.
  replace (Z.to_nat (Z.of_nat (List.length l) + 1))
    with (List.length (l ++ [NL])) by (rewrite length_app; simpl; lia).
  replace (l ++ NL :: rest) with ((l ++ [NL]) ++ rest)
    by (rewrite <- app_assoc; reflexivity).
  apply skipn_length_app.
Qed.

(** One newline-terminated line that fits: the line parser gets the text in
    the buffer, the line counter goes up, the buffer is empty again, and the
    loop goes on with the bytes behind the newline if there are any. *)
Lemma assembler_one_line (st : dstate) (lb : linebuf) (num : Z)
  (l rest : list ascii) :
  linebuf_ok K lb ->
  line_fits K (tmpl lb) l = true ->
  exists tmp',
    linebuf_ok K (mk_linebuf tmp' 0) /\
    dmfs_parse_page K st (l ++ NL :: rest) lb num =
    let st1 :=
      dmfs_parse_line K st num
        (cstring (firstn (Z.to_nat (tmpl lb)) (tmp lb) ++ l)) in
    match rest with
    | [] => Some (0, st1, mk_linebuf tmp' 0, num + 1)
    | _ :: _ => dmfs_parse_page K st1 rest (mk_linebuf tmp' 0) (num + 1)
    end.
Proof.
  intros Hok Hfit.
  apply line_fits_spec in Hfit. destruct Hfit as [Hnl Hlt].
  destruct (linebuf_split lb Hok) as (Hsplit & Hpre & Hold);
    [destruct Hok; lia|].
  set (pre := firstn (Z.to_nat (tmpl lb)) (tmp lb)) in *.
  set (old := skipn (Z.to_nat (tmpl lb)) (tmp lb)) in *.
  exists (pre ++ l ++ NUL :: skipn (S (List.length l)) old).
  split.
  { destruct Hok as [Hlen Hpos]. split; [|cbn [tmpl]; lia]. cbn [tmp].
    rewrite !length_app. cbn [List.length]. rewrite length_skipn. lia. }
  rewrite dmfs_parse_page_eq.
  rewrite Hsplit at 1. rewrite <- Hpre at 1.
  rewrite dmfs_copy_line by (auto; lia).
  rewrite skipn_line.
  destruct (Z.eqb_spec (tmpl lb + (Z.of_nat (List.length l) + 1))
              (PAGE_SIZE K - 1)) as [E|_]; [lia|].
  replace (pre ++ l ++ NUL :: skipn (S (List.length l)) old)
    with ((pre ++ l) ++ NUL :: skipn (S (List.length l)) old)
    by (rewrite <- app_assoc; reflexivity).
  rewrite cstring_app_nul. cbv zeta.
  destruct rest as [|r rest]; reflexivity.
Qed.

Lemma lines_bytes_cons (l : list ascii) (ls : list (list ascii))
  (tail : list ascii) :
  lines_bytes (l :: ls) ++ tail = l ++ NL :: (lines_bytes ls ++ tail).
Proof.
  unfold lines_bytes. simpl. rewrite <- !app_assoc. reflexivity.
Qed.

(** Any number of lines that fit, followed by [tail]: the line parser is
    run on each line in order, and the loop goes on with [tail] on an empty
    buffer. *)
Lemma assembler_lines (ls : list (list ascii)) :
  forall (l : list ascii) (st : dstate) (lb : linebuf) (num : Z)
         (tail : list ascii),
    linebuf_ok K lb ->
    lines_fit K (tmpl lb) (l :: ls) = true ->
    exists tmp',
      linebuf_ok K (mk_linebuf tmp' 0) /\
      dmfs_parse_page K st (lines_bytes (l :: ls) ++ tail) lb num =
      let st' := parse_lines K st num (buffered_lines lb (l :: ls)) in
      let num' := num + Z.of_nat (List.length (l :: ls)) in
      match tail with
      | [] => Some (0, st', mk_linebuf tmp' 0, num')
      | _ :: _ => dmfs_parse_page K st' tail (mk_linebuf tmp' 0) num'
      end.
Proof.
  induction ls as [|l2 ls IH]; intros l st lb num tail Hok Hfit;
    cbn [lines_fit] in Hfit; apply andb_true_iff in Hfit;
    destruct Hfit as [Hl Hls]; rewrite lines_bytes_cons.
  - destruct (assembler_one_line st lb num l tail Hok Hl) as (tmp' & Hok' & E).
    exists tmp'. split; [assumption|].
    change (lines_bytes [] ++ tail) with tail. rewrite E. reflexivity.
  - destruct (assembler_one_line st lb num l (lines_bytes (l2 :: ls) ++ tail)
                Hok Hl) as (tmp1 & Hok1 & E1).
    rewrite E1. clear E1. cbv zeta.
    destruct (lines_bytes (l2 :: ls) ++ tail) as [|c b] eqn:Hb.
    { rewrite lines_bytes_cons in Hb. destruct l2; discriminate Hb. }
    rewrite <- Hb. clear Hb c b.
    destruct (IH l2 (dmfs_parse_line K st num
                       (cstring (firstn (Z.to_nat (tmpl lb)) (tmp lb) ++ l)))
                (mk_linebuf tmp1 0) (num + 1) tail Hok1)
      as (tmp' & Hok' & E).
    { cbn [lines_fit tmpl]. exact Hls. }
    exists tmp'. split; [assumption|]. rewrite E.
    cbn [buffered_lines parse_lines tmpl tmp Z.to_nat firstn app List.length].
    replace (num + 1 + Z.of_nat (S (List.length ls)))
      with (num + Z.of_nat (S (S (List.length ls)))) by lia.
    reflexivity.
Qed.

(** Text without a newline that stays short of the last slot but one:
    nothing is parsed, nothing is recorded, the text is in the buffer. *)
Lemma assembler_tail_short (st : dstate) (lb : linebuf) (num : Z)
  (tail : list ascii) :
  linebuf_ok K lb ->
  no_newline tail = true ->
  tmpl lb + Z.of_nat (List.length tail) < PAGE_SIZE K - 1 ->
  exists tmp',
    dmfs_parse_page K st tail lb num =
    Some (0, st, mk_linebuf tmp' (Z.of_nat (List.length tail)), num).
Proof.
  intros Hok Hnl Hlt.
  destruct (linebuf_split lb Hok) as (Hsplit & Hpre & Hold);
    [destruct Hok; lia|].
  set (pre := firstn (Z.to_nat (tmpl lb)) (tmp lb)) in *.
  set (old := skipn (Z.to_nat (tmpl lb)) (tmp lb)) in *.
  exists (pre ++ tail ++ skipn (List.length tail) old).
  rewrite dmfs_parse_page_eq.
  rewrite Hsplit at 1. rewrite <- Hpre at 1.
  rewrite dmfs_copy_tail by (auto; lia).
  rewrite Nat2Z.id, skipn_all.
  destruct (Z.eqb_spec (tmpl lb + Z.of_nat (List.length tail))
              (PAGE_SIZE K - 1)) as [E|_]; [lia|].
  reflexivity.
Qed.

(** Text without a newline that reaches the last slot but one: the error
    is recorded for the current line, and what follows is not read. *)
Lemma assembler_tail_fill (st : dstate) (lb : linebuf) (num : Z)
  (long rest : list ascii) :
  linebuf_ok K lb ->
  no_newline long = true ->
  tmpl lb + Z.of_nat (List.length long) = PAGE_SIZE K - 1 ->
  exists tmp',
    dmfs_parse_page K st (long ++ rest) lb num =
    Some (-1, dmfs_add_error st num "Line too long",
          mk_linebuf tmp' (tmpl lb), num).
Proof.
  intros Hok Hnl Hlt.
  destruct (linebuf_split lb Hok) as (Hsplit & Hpre & Hold);
    [destruct Hok; lia|].
  set (pre := firstn (Z.to_nat (tmpl lb)) (tmp lb)) in *.
  set (old := skipn (Z.to_nat (tmpl lb)) (tmp lb)) in *.
  exists (pre ++ long ++ skipn (List.length long) old).
  rewrite dmfs_parse_page_eq.
  rewrite Hsplit at 1. rewrite <- Hpre at 1.
  rewrite dmfs_copy_fill by (auto; lia).
  destruct (Z.eqb_spec (tmpl lb + (PAGE_SIZE K - tmpl lb - 1))
              (PAGE_SIZE K - 1)) as [_|E]; [|lia].
  reflexivity.
Qed.

End AssemblerLines.

(** ** Lines followed by an unterminated text *)

Section AssemblerTails.

Context (K : dm_env).

(** Complete lines, then text without a newline that reaches the last slot
    but one of the buffer: the lines are parsed, the error is recorded for
    the line after them, and nothing behind is read. *)
Lemma assembler_lines_then_fill (st : dstate) (lb : linebuf) (num : Z)
  (lines : list (list ascii)) (long rest : list ascii) :
  linebuf_ok K lb ->
  lines_fit K (tmpl lb) lines = true ->
  no_newline long = true ->
  fill_after lb lines + Z.of_nat (List.length long) = PAGE_SIZE K - 1 ->
  exists lb',
    dmfs_parse_page K st (lines_bytes lines ++ long ++ rest) lb num =
    Some (-1,
          dmfs_add_error (parse_lines K st num (buffered_lines lb lines))
            (num + Z.of_nat (List.length lines)) "Line too long",
          lb', num + Z.of_nat (List.length lines)).
Proof.
  intros Hok Hfit Hnl Hfill.
  destruct lines as [|l ls].
  - cbn [lines_bytes flat_map app buffered_lines parse_lines List.length
         fill_after] in *.
    destruct (assembler_tail_fill K st lb num long rest Hok Hnl Hfill)
      as (tmp' & E).
    rewrite E, Z.add_0_r. eauto.
  - destruct (assembler_lines K ls l st lb num (long ++ rest) Hok Hfit)
      as (tmp' & Hok' & E).
    rewrite E. clear E. cbv zeta.
    cbn [lines_fit fill_after] in *.
    apply andb_true_iff in Hfit. destruct Hfit as [Hl _].
    apply line_fits_spec in Hl. destruct Hl as [_ Hl].
    destruct (long ++ rest) as [|c b] eqn:Hb.
    { destruct long; [|discriminate Hb]. destruct Hok. simpl in Hfill. lia. }
    rewrite <- Hb. clear Hb c b.
    destruct (assembler_tail_fill K
                (parse_lines K st num (buffered_lines lb (l :: ls)))
                (mk_linebuf tmp' 0) (num + Z.of_nat (List.length (l :: ls)))
                long rest Hok' Hnl Hfill) as (tmp'' & E).
    rewrite E. eauto.
Qed.

(** Complete lines, then text without a newline that stays short of the
    last slot but one: the lines are parsed and the text waits in the
    buffer; it is not parsed and records nothing. *)
Lemma assembler_lines_then_tail (st : dstate) (lb : linebuf) (num : Z)
  (lines : list (list ascii)) (tail : list ascii) :
  linebuf_ok K lb ->
  lines_fit K (tmpl lb) lines = true ->
  no_newline tail = true ->
  fill_after lb lines + Z.of_nat (List.length tail) < PAGE_SIZE K - 1 ->
  exists tmp',
    dmfs_parse_page K st (lines_bytes lines ++ tail) lb num =
    Some (0, parse_lines K st num (buffered_lines lb lines),
          mk_linebuf tmp' (Z.of_nat (List.length tail)),
          num + Z.of_nat (List.length lines)).
Proof.
  intros Hok Hfit Hnl Hfill.
  destruct lines as [|l ls].
  - cbn [lines_bytes flat_map app buffered_lines parse_lines List.length
         fill_after] in *.
    destruct (assembler_tail_short K st lb num tail Hok Hnl Hfill)
      as (tmp' & E).
    rewrite E, Z.add_0_r. eauto.
  - destruct (assembler_lines K ls l st lb num tail Hok Hfit)
      as (tmp' & Hok' & E).
    rewrite E. clear E. cbv zeta.
    cbn [fill_after] in *.
    destruct tail as [|c b] eqn:Hb; [eauto|].
    rewrite <- Hb in *. clear Hb c b.
    destruct (assembler_tail_short K
                (parse_lines K st num (buffered_lines lb (l :: ls)))
                (mk_linebuf tmp' 0) (num + Z.of_nat (List.length (l :: ls)))
                tail Hok' Hnl Hfill) as (tmp'' & E).
    rewrite E. eauto.
Qed.

End AssemblerTails.

(** ** The page loop *)

Lemma iterate_pow2_exit {S R : Type} (n : nat) (body : S -> option (S + R))
  (k : S -> option R) (s : S) (r : R) :
  body s = Some (inr r) -> iterate_pow2 n body k s = Some r.
Proof.
  revert k. induction n as [|n IH]; intros k H; simpl.
  - now rewrite H.
  - now apply IH.
Qed.

Lemma iterate_fuel_ext {S R : Type} (m : nat) (body : S -> option (S + R))
  (k1 k2 : S -> option R) :
  (forall s, k1 s = k2 s) ->
  forall s, iterate_fuel m body k1 s = iterate_fuel m body k2 s.
Proof.
  intros Hk. induction m as [|m IH]; intros s; simpl; [apply Hk|].
  destruct (body s) as [[s'|r]|]; auto.
Qed.

Lemma iterate_fuel_add {S R : Type} (a b : nat) (body : S -> option (S + R))
  (k : S -> option R) (s : S) :
  iterate_fuel (a + b) body k s =
  iterate_fuel a body (iterate_fuel b body k) s.
Proof.
  revert s. induction a as [|a IH]; intros s; simpl; [reflexivity|].
  destruct (body s) as [[s'|r]|]; auto.
Qed.

(** [iterate_pow2 n] makes [2 ^ n] passes. *)
Lemma iterate_pow2_fuel {S R : Type} (n : nat) (body : S -> option (S + R)) :
  forall (k : S -> option R) (s : S),
    iterate_pow2 n body k s = iterate_fuel (2 ^ n) body k s.
Proof.
  induction n as [|n IH]; intros k s.
  - simpl. destruct (body s) as [[s'|r]|]; reflexivity.
  - cbn [iterate_pow2]. rewrite IH.
    replace (2 ^ Datatypes.S n)%nat with (2 ^ n + 2 ^ n)%nat
      by (simpl; lia).
    rewrite iterate_fuel_add. apply iterate_fuel_ext. intros s'. apply IH.
Qed.

Section PageLoop.

Context (K : dm_env).

Lemma dmfs_parse_pages_exit (ino : inode) (ei eo : Z) (s : loop_state)
  (r : parse_result) :
  dmfs_parse_body K ino ei eo s = Some (inr r) ->
  dmfs_parse_pages K ino ei eo s = Some r.
Proof. apply iterate_pow2_exit. Qed.

Lemma dmfs_parse_pages_as_fuel (ino : inode) (ei eo : Z) (s : loop_state) :
  dmfs_parse_pages K ino ei eo s =
  dmfs_parse_pages_fuel K (2 ^ BITS_PER_LONG K) ino ei eo s.
Proof. apply iterate_pow2_fuel. Qed.

Lemma dmfs_parse_body_total (ino : inode) (ei eo : Z) (s : loop_state) :
  exists x, dmfs_parse_body K ino ei eo s = Some x.
Proof.
  unfold dmfs_parse_body.
  destruct (i_mapping ino (l_index s)) as [pg|]; [|eauto].
  destruct (negb (uptodate pg)); [eauto|].
  match goal with
  | |- context [dmfs_parse_page K ?st ?buf ?lb ?num] =>
      destruct (dmfs_parse_page_total K st buf lb num) as ([[[rv st'] lb'] num'] & E);
      rewrite E
  end.
  destruct (negb (rv =? 0)); eauto.
Qed.

(** A pass that goes round again has moved [index] on by one, modulo the
    width of [unsigned long], and not onto [end_index]. *)
Lemma dmfs_parse_body_next (ino : inode) (ei eo : Z) (s s' : loop_state) :
  dmfs_parse_body K ino ei eo s = Some (inl s') ->
  l_index s' = to_ulong K (l_index s + 1) /\ l_index s' <> ei.
Proof.
  unfold dmfs_parse_body.
  destruct (i_mapping ino (l_index s)) as [pg|].
  - destruct (negb (uptodate pg)); [discriminate|].
    destruct (dmfs_parse_page K _ _ _ _) as [[[[rv st'] lb'] num']|];
      [|discriminate].
    destruct (negb (rv =? 0)); [discriminate|].
    destruct (Z.eqb_spec (to_ulong K (l_index s + 1)) ei); [discriminate|].
    intros H; inversion H; subst; simpl; auto.
  - destruct (Z.eqb_spec (to_ulong K (l_index s + 1)) ei); [discriminate|].
    intros H; inversion H; subst; simpl; auto.
Qed.

Lemma passes_left_next (ei index : Z) :
  0 <= ei < 2 ^ Z.of_nat (BITS_PER_LONG K) ->
  to_ulong K (index + 1) <> ei ->
  passes_left K ei (to_ulong K (index + 1)) = passes_left K ei index - 1.
Proof.
  unfold passes_left, to_ulong.
  set (M := 2 ^ Z.of_nat (BITS_PER_LONG K)).
  intros Hei Hne.
  assert (HM : 0 < M) by lia.
  assert (Hd : (ei - 1 - index) mod M <> 0).
  { intros E. apply Hne.
    replace (index + 1) with (ei + (-1) * ((ei - 1 - index))) by lia.
    rewrite Z.add_mod, Z.mul_mod, E by lia.
    rewrite Z.mul_0_r, Z.mod_0_l, Z.add_0_r, Z.mod_mod by lia.
    apply Z.mod_small; lia. }
  pose proof (Z.mod_pos_bound (ei - 1 - index) M HM) as Hb.
  rewrite Zminus_mod_idemp_r.
  replace (ei - 1 - (index + 1)) with ((ei - 1 - index) - 1) by lia.
  rewrite <- Zminus_mod_idemp_l.
  apply Z.mod_small. lia.
Qed.

(** The page loop ends once it has fuel for the passes left. *)
Lemma dmfs_parse_pages_fuel_total (ino : inode) (ei eo : Z) (m : nat) :
  0 <= ei < 2 ^ Z.of_nat (BITS_PER_LONG K) ->
  forall s,
    passes_left K ei (l_index s) < Z.of_nat m ->
    exists r, dmfs_parse_pages_fuel K m ino ei eo s = Some r.
Proof.
  intros Hei. unfold dmfs_parse_pages_fuel.
  induction m as [|m IH]; intros s Hm.
  - unfold passes_left in Hm.
    pose proof (Z.mod_pos_bound (ei - 1 - l_index s)
                  (2 ^ Z.of_nat (BITS_PER_LONG K))). lia.
  - cbn [iterate_fuel].
    destruct (dmfs_parse_body_total ino ei eo s) as ([s'|r] & E); rewrite E;
      [|eauto].
    apply dmfs_parse_body_next in E. destruct E as [E1 E2].
    apply IH. rewrite E1 in *. rewrite passes_left_next by assumption. lia.
Qed.

(** [dmfs_parse] returns for every inode. *)
Theorem dmfs_parse_total (ino : inode) :
  exists r, dmfs_parse K ino = Some r.
Proof.
  unfold dmfs_parse.
  destruct (i_size ino =? 0); [eauto|].
  destruct (get_free_page K); [|eauto].
  destruct (dm_create_table K); [|eauto].
  rewrite dmfs_parse_pages_as_fuel.
  assert (HM : 0 < 2 ^ Z.of_nat (BITS_PER_LONG K))
    by (apply Z.pow_pos_nonneg; lia).
  apply dmfs_parse_pages_fuel_total.
  - unfold to_ulong. apply Z.mod_pos_bound. exact HM.
  - cbn [l_index]. rewrite Nat2Z.inj_pow. unfold passes_left.
    apply Z.mod_pos_bound. exact HM.
Qed.

End PageLoop.

Section WholeParse.

Context (K : dm_env).

(** The calls of [dmfs_parse] after its loop: no line is parsed and no
    error is recorded there. *)
Lemma dmfs_parse_finish_calls (st : dstate) :
  let r := dmfs_parse_finish K st in
  let rv := fst (dm_table_complete K (table st)) in
  retval r =
    (if rv =? 0 then Some (snd (dm_table_complete K (table st))) else None) /\
  r_errors r = errors st /\
  r_trace r =
    trace st ++ [EvFreePage; EvTableComplete rv] ++
    (if rv =? 0 then [] else [EvPutTable]).
Proof.
  unfold dmfs_parse_finish.
  destruct (dm_table_complete K (table st)) as [rv t']. simpl.
  destruct (rv =? 0); simpl; auto.
Qed.

(** C3.  In any pass of the page loop, when the chunk holds complete lines
    that fit and then text without a newline that fills the line buffer to
    [PAGE_SIZE - 1] bytes, the parse records "Line too long" for the line
    number reached after those lines, reads nothing behind that text (no
    byte of [rest], no further page), destroys the table and returns NULL.
    The lines before it in the chunk are parsed as usual. *)
Theorem line_too_long_aborts_parse (ino : inode) (ei eo : Z) (s : loop_state)
  (pg : page) (lines : list (list ascii)) (long rest : list ascii) :
  let len := chunk_len K ei eo (l_index s) in
  i_mapping ino (l_index s) = Some pg ->
  uptodate pg = true ->
  linebuf_ok K (l_lb s) ->
  firstn (Z.to_nat len) (kaddr pg) = lines_bytes lines ++ long ++ rest ->
  lines_fit K (tmpl (l_lb s)) lines = true ->
  no_newline long = true ->
  fill_after (l_lb s) lines + Z.of_nat (List.length long) = PAGE_SIZE K - 1 ->
  let st' :=
    parse_lines K (log (l_st s) [EvParsePage (l_index s) len]) (l_num s)
      (buffered_lines (l_lb s) lines) in
  dmfs_parse_pages K ino ei eo s =
  Some (mk_result None
          (errors st' ++
           [(l_num s + Z.of_nat (List.length lines), "Line too long"%string)])
          (trace st' ++
           [EvPrintk "dmfs_parse: Parse error"; EvFreePage; EvPutTable])).
Proof.
  intros len Hpg Hup Hok Hchunk Hfit Hnl Hfill st'.
  apply dmfs_parse_pages_exit. unfold dmfs_parse_body.
  rewrite Hpg, Hup. cbn [negb].
  fold (chunk_len K ei eo (l_index s)). fold len. rewrite Hchunk.
  destruct (assembler_lines_then_fill K
              (log (l_st s) [EvParsePage (l_index s) len]) (l_lb s) (l_num s)
              lines long rest Hok Hfit Hnl Hfill) as (lb' & E).
  rewrite E. reflexivity.
Qed.

(** The last pass of the page loop when its page is not in the page
    cache: the loop ends, and what the line buffer still holds is not
    parsed. *)
Lemma last_pass_without_page (ino : inode) (ei eo : Z) (s : loop_state) :
  to_ulong K (l_index s + 1) = ei ->
  i_mapping ino (l_index s) = None ->
  dmfs_parse_pages K ino ei eo s = Some (dmfs_parse_finish K (l_st s)).
Proof.
  intros Hlast Hpg. apply dmfs_parse_pages_exit. unfold dmfs_parse_body.
  rewrite Hpg, Hlast, Z.eqb_refl. reflexivity.
Qed.

(** Passes without a page, up to the end of the loop: when no page is in
    the page cache at [index] and at the indices the loop still goes
    through, the loop ends in the state it has. *)
Lemma absent_pages_to_end (ino : inode) (ei eo : Z) :
  0 <= ei < 2 ^ Z.of_nat (BITS_PER_LONG K) ->
  forall m s,
    0 <= l_index s < 2 ^ Z.of_nat (BITS_PER_LONG K) ->
    (forall j, 0 <= j <= passes_left K ei (l_index s) ->
               i_mapping ino (to_ulong K (l_index s + j)) = None) ->
    passes_left K ei (l_index s) < Z.of_nat m ->
    dmfs_parse_pages_fuel K m ino ei eo s =
    Some (dmfs_parse_finish K (l_st s)).
Proof.
  intros Hei.
  assert (HM : 0 < 2 ^ Z.of_nat (BITS_PER_LONG K)) by lia.
  induction m as [|m IH]; intros s Hs Habs Hm.
  - unfold passes_left in Hm.
    pose proof (Z.mod_pos_bound (ei - 1 - l_index s) _ HM). lia.
  - assert (Hleft : 0 <= passes_left K ei (l_index s))
      by (apply Z.mod_pos_bound; exact HM).
    assert (Hpg : i_mapping ino (l_index s) = None).
    { rewrite <- (Habs 0) by lia. f_equal. rewrite Z.add_0_r.
      unfold to_ulong. symmetry. apply Z.mod_small. exact Hs. }
    unfold dmfs_parse_pages_fuel. cbn [iterate_fuel].
    unfold dmfs_parse_body. rewrite Hpg.
    destruct (Z.eqb_spec (to_ulong K (l_index s + 1)) ei) as [_|Hne];
      [reflexivity|].
    apply (IH (mk_loop (to_ulong K (l_index s + 1)) (l_st s) (l_lb s)
                 (l_num s))); cbn [l_index].
    + apply Z.mod_pos_bound. exact HM.
    + intros j Hj. rewrite passes_left_next in Hj by assumption.
      rewrite <- (Habs (j + 1)) by lia. f_equal. unfold to_ulong.
      rewrite Zplus_mod_idemp_l. f_equal. lia.
    + rewrite passes_left_next by assumption. lia.
Qed.

(** C8 (amended).  In a pass after which the loop hands no further page
    to the assembler (no page is in the page cache at any index that it
    still goes through; in the last pass there is no such index), text
    without a newline behind the last complete line of the chunk, as long
    as it does not fill the line buffer to [PAGE_SIZE - 1] bytes, is not
    handed to the line parser and records no error: the loop ends in the
    state reached after the complete lines, and what follows is
    [free_page] and [dm_table_complete] (and [dm_put_table] when that
    fails) only. *)
Theorem unterminated_tail_is_dropped (ino : inode) (ei eo : Z)
  (s : loop_state) (pg : page) (lines : list (list ascii))
  (tail : list ascii) :
  let len := chunk_len K ei eo (l_index s) in
  0 <= ei < 2 ^ Z.of_nat (BITS_PER_LONG K) ->
  (forall j, 1 <= j <= passes_left K ei (l_index s) ->
             i_mapping ino (to_ulong K (l_index s + j)) = None) ->
  i_mapping ino (l_index s) = Some pg ->
  uptodate pg = true ->
  linebuf_ok K (l_lb s) ->
  firstn (Z.to_nat len) (kaddr pg) = lines_bytes lines ++ tail ->
  lines_fit K (tmpl (l_lb s)) lines = true ->
  no_newline tail = true ->
  fill_after (l_lb s) lines + Z.of_nat (List.length tail) < PAGE_SIZE K - 1 ->
  let st' :=
    parse_lines K (log (l_st s) [EvParsePage (l_index s) len]) (l_num s)
      (buffered_lines (l_lb s) lines) in
  let rv := fst (dm_table_complete K (table st')) in
  exists r,
    dmfs_parse_pages K ino ei eo s = Some r /\
    retval r =
      (if rv =? 0 then Some (snd (dm_table_complete K (table st')))
       else None) /\
    r_errors r = errors st' /\
    r_trace r =
      trace st' ++ [EvFreePage; EvTableComplete rv] ++
      (if rv =? 0 then [] else [EvPutTable]).
Proof.
  intros len Hei Habs Hpg Hup Hok Hchunk Hfit Hnl Hfill st' rv.
  assert (HM : 0 < 2 ^ Z.of_nat (BITS_PER_LONG K)) by lia.
  exists (dmfs_parse_finish K st'). split; [|apply dmfs_parse_finish_calls].
  rewrite dmfs_parse_pages_as_fuel.
  pose proof (Nat2Z.inj_pow 2 (BITS_PER_LONG K)) as Hpow.
  change (Z.of_nat 2) with 2 in Hpow.
  destruct (2 ^ BITS_PER_LONG K)%nat as [|m] eqn:Em; [lia|].
  unfold dmfs_parse_pages_fuel. cbn [iterate_fuel].
  unfold dmfs_parse_body.
  rewrite Hpg, Hup. cbn [negb].
  fold (chunk_len K ei eo (l_index s)). fold len. rewrite Hchunk.
  destruct (assembler_lines_then_tail K
              (log (l_st s) [EvParsePage (l_index s) len]) (l_lb s)
              (l_num s) lines tail Hok Hfit Hnl Hfill) as (tmp' & E).
  rewrite E. cbn [Z.eqb negb]. fold st'.
  destruct (Z.eqb_spec (to_ulong K (l_index s + 1)) ei) as [_|Hne];
    [reflexivity|].
  assert (Hleft : passes_left K ei (l_index s) <
                  2 ^ Z.of_nat (BITS_PER_LONG K))
    by (apply Z.mod_pos_bound; exact HM).
  apply (absent_pages_to_end ino ei eo Hei m
           (mk_loop (to_ulong K (l_index s + 1)) st'
              (mk_linebuf tmp' (Z.of_nat (List.length tail)))
              (l_num s + Z.of_nat (List.length lines)))); cbn [l_index].
  - apply Z.mod_pos_bound. exact HM.
  - intros j Hj. rewrite passes_left_next in Hj by assumption.
    rewrite <- (Habs (j + 1)) by lia. f_equal. unfold to_ulong.
    rewrite Zplus_mod_idemp_l. f_equal. lia.
  - rewrite passes_left_next by assumption. lia.
Qed.

(** C9 (amended).  A page that is not in the page cache is passed over:
    nothing is handed to the assembler, nothing is recorded, and the loop
    goes on from the next index with the parse state, the line buffer and
    the line counter as they were (or ends, after the last pass).  A page
    that is in the page cache but not up to date stops the parse: a kernel
    message is printed, the table is destroyed and NULL is returned; no
    error is recorded and no later page is read. *)
Theorem unavailable_page_skipped_or_fatal (ino : inode) (ei eo : Z)
  (s : loop_state) (m : nat) :
  page_unavailable ino (l_index s) = true ->
  dmfs_parse_pages_fuel K (S m) ino ei eo s =
  match i_mapping ino (l_index s) with
  | None =>
      if to_ulong K (l_index s + 1) =? ei
      then Some (dmfs_parse_finish K (l_st s))
      else dmfs_parse_pages_fuel K m ino ei eo
             (mk_loop (to_ulong K (l_index s + 1))
                (l_st s) (l_lb s) (l_num s))
  | Some _ =>
      Some (mk_result None (errors (l_st s))
              (trace (l_st s) ++
               [EvPrintk "dmfs_parse: Page not uptodate";
                EvFreePage; EvPutTable]))
  end.
Proof.
  unfold page_unavailable, dmfs_parse_pages_fuel. cbn [iterate_fuel].
  unfold dmfs_parse_body.
  destruct (i_mapping ino (l_index s)) as [pg|]; intros Hun.
  - rewrite Hun. reflexivity.
  - destruct (to_ulong K (l_index s + 1) =? ei); reflexivity.
Qed.

(** C10.  When [i_size] is 0, [dmfs_parse] returns NULL at once: no page is
    allocated, no table is created, no chunk is read, no line is parsed, no
    error is recorded and no constructor is called. *)
Theorem empty_content_fails_at_once (ino : inode) :
  i_size ino = 0 ->
  dmfs_parse K ino = Some (mk_result None [] []).
Proof.
  intros H. unfold dmfs_parse. rewrite H. reflexivity.
Qed.

End WholeParse.

Section GapInTable.

Context (K : dm_env).


End GapInTable.

(** ** Which pages the loop reads *)

Section PagesRead.

Context (K : dm_env).

Lemma to_ulong_small (z : Z) :
  0 <= z < 2 ^ Z.of_nat (BITS_PER_LONG K) -> to_ulong K z = z.
Proof. intros H. unfold to_ulong. now apply Z.mod_small. Qed.

(** The body of the loop only looks at the page of its own index. *)
Lemma dmfs_parse_body_same_page (ino1 ino2 : inode) (ei eo : Z)
  (s : loop_state) :
  i_mapping ino1 (l_index s) = i_mapping ino2 (l_index s) ->
  dmfs_parse_body K ino1 ei eo s = dmfs_parse_body K ino2 ei eo s.
Proof. intros H. unfold dmfs_parse_body. now rewrite H. Qed.

(** Below [end_index] the loop never gets to the page at [end_index]. *)
Lemma dmfs_parse_pages_below_end (ino1 ino2 : inode) (ei eo : Z) :
  (forall i, i <> ei -> i_mapping ino1 i = i_mapping ino2 i) ->
  ei < 2 ^ Z.of_nat (BITS_PER_LONG K) ->
  forall m s,
    0 <= l_index s < ei ->
    dmfs_parse_pages_fuel K m ino1 ei eo s =
    dmfs_parse_pages_fuel K m ino2 ei eo s.
Proof.
  intros Hsame Hei. unfold dmfs_parse_pages_fuel.
  induction m as [|m IH]; intros s Hs; [reflexivity|].
  cbn [iterate_fuel].
  rewrite (dmfs_parse_body_same_page ino1 ino2) by (apply Hsame; lia).
  destruct (dmfs_parse_body K ino2 ei eo s) as [[s'|r]|] eqn:E; auto.
  apply dmfs_parse_body_next in E. destruct E as [E1 E2].
  rewrite to_ulong_small in E1 by lia.
  apply IH. lia.
Qed.

(** X22.  When the content is at least one page long, the page at
    [end_index], which holds the last [end_offset] bytes, is never read:
    [dmfs_parse] gives the same result without it. *)
Theorem last_partial_page_never_read (ino : inode) :
  1 <= to_ulong K (Z.shiftr (i_size ino) (PAGE_SHIFT K)) ->
  dmfs_parse K ino =
  dmfs_parse K
    (without_page ino (to_ulong K (Z.shiftr (i_size ino) (PAGE_SHIFT K)))).
Proof.
  intros Hei. unfold dmfs_parse. cbn [without_page i_size].
  destruct (i_size ino =? 0); [reflexivity|].
  destruct (get_free_page K); [|reflexivity].
  destruct (dm_create_table K); [|reflexivity].
  rewrite !dmfs_parse_pages_as_fuel.
  apply dmfs_parse_pages_below_end.
  - intros i Hi. cbn [without_page i_mapping].
    destruct (Z.eqb_spec i (to_ulong K (Z.shiftr (i_size ino) (PAGE_SHIFT K))));
      [contradiction|reflexivity].
  - unfold to_ulong. apply Z.mod_pos_bound. apply Z.pow_pos_nonneg; lia.
  - cbn [l_index]. lia.
Qed.

(** With [end_index = 0] and no page in the page cache from [index] up to
    the largest [unsigned long], the loop runs on until [index] wraps to 0
    and ends there with the state it had. *)
Lemma absent_pages_until_wrap (ino : inode) (eo : Z) :
  forall m s,
    0 < l_index s < 2 ^ Z.of_nat (BITS_PER_LONG K) ->
    (forall i, l_index s <= i < 2 ^ Z.of_nat (BITS_PER_LONG K) ->
               i_mapping ino i = None) ->
    2 ^ Z.of_nat (BITS_PER_LONG K) - l_index s <= Z.of_nat m ->
    dmfs_parse_pages_fuel K m ino 0 eo s =
    Some (dmfs_parse_finish K (l_st s)).
Proof.
  unfold dmfs_parse_pages_fuel.
  induction m as [|m IH]; intros s Hs Habs Hm; [lia|].
  cbn [iterate_fuel]. unfold dmfs_parse_body.
  rewrite Habs by lia.
  destruct (Z.eq_dec (l_index s + 1) (2 ^ Z.of_nat (BITS_PER_LONG K)))
    as [Hwrap|Hgo].
  - unfold to_ulong. rewrite Hwrap, Z.mod_same by lia. reflexivity.
  - rewrite to_ulong_small by lia.
    destruct (Z.eqb_spec (l_index s + 1) 0) as [E|_]; [lia|].
    rewrite IH; cbn [l_index l_st]; auto; try lia.
    intros i Hi. apply Habs. lia.
Qed.

(** A table file shorter than a page, alone in the page cache: complete
    lines that fit, then text without a newline that stays short of the
    last slot but one of the buffer.  [dmfs_parse] parses the lines in
    order and then completes the table; the text behind the last newline is
    dropped. *)
Theorem small_file_parse (ino : inode) (pg : page) (scratch : list ascii)
  (t : dm_table) (lines : list (list ascii)) (tail : list ascii) :
  0 <= PAGE_SHIFT K ->
  0 < i_size ino < PAGE_SIZE K ->
  get_free_page K = Some scratch ->
  Z.of_nat (List.length scratch) = PAGE_SIZE K ->
  dm_create_table K = Some t ->
  i_mapping ino 0 = Some pg ->
  uptodate pg = true ->
  (forall i, 0 < i -> i_mapping ino i = None) ->
  firstn (Z.to_nat (i_size ino)) (kaddr pg) = lines_bytes lines ++ tail ->
  lines_fit K 0 lines = true ->
  no_newline tail = true ->
  Z.of_nat (List.length tail) < PAGE_SIZE K - 1 ->
  dmfs_parse K ino =
  Some (dmfs_parse_finish K
          (parse_lines K
             (mk_dstate t []
                [EvGetFreePage true; EvCreateTable true;
                 EvParsePage 0 (i_size ino)])
             0 lines)).
Proof.
  intros Hshift Hsize Hpage Hscratch Htable Hpg Hup Habs Hchunk Hfit Hnl Htail.
  unfold dmfs_parse.
  destruct (Z.eqb_spec (i_size ino) 0) as [E|_]; [lia|].
  rewrite Hpage, Htable.
  assert (HM : 0 < 2 ^ Z.of_nat (BITS_PER_LONG K))
    by (apply Z.pow_pos_nonneg; lia).
  assert (Hei : to_ulong K (Z.shiftr (i_size ino) (PAGE_SHIFT K)) = 0).
  { rewrite Z.shiftr_div_pow2 by assumption.
    unfold PAGE_SIZE in Hsize. rewrite Z.div_small by lia.
    unfold to_ulong. apply Z.mod_0_l. lia. }
  assert (Heo : Z.land (i_size ino) (PAGE_CACHE_SIZE K - 1) = i_size ino).
  { unfold PAGE_CACHE_SIZE, PAGE_SIZE in *.
    replace (2 ^ PAGE_SHIFT K - 1) with (Z.ones (PAGE_SHIFT K))
      by (rewrite Z.ones_equiv; lia).
    rewrite Z.land_ones by assumption. apply Z.mod_small. lia. }
  rewrite Hei, Heo, dmfs_parse_pages_as_fuel.
  assert (Hfuel : Z.of_nat (2 ^ BITS_PER_LONG K) =
                  2 ^ Z.of_nat (BITS_PER_LONG K))
    by (rewrite Nat2Z.inj_pow; reflexivity).
  destruct (2 ^ BITS_PER_LONG K)%nat as [|m] eqn:Em; [lia|].
  unfold dmfs_parse_pages_fuel. cbn [iterate_fuel].
  unfold dmfs_parse_body at 1. cbn [l_index l_st l_lb l_num].
  rewrite Hpg, Hup. cbn [negb Z.eqb].
  rewrite Hchunk.
  destruct (assembler_lines_then_tail K
              (log (mk_dstate t [] [EvGetFreePage true; EvCreateTable true])
                 [EvParsePage 0 (i_size ino)])
              (mk_linebuf scratch 0) 0 lines tail)
    as (tmp' & E); auto.
  { split; cbn [tmp tmpl]; [assumption|lia]. }
  { destruct lines; cbn [fill_after tmpl]; lia. }
  rewrite E. cbn [negb Z.eqb buffered_lines].
  replace (buffered_lines (mk_linebuf scratch 0) lines) with lines
    by (destruct lines; reflexivity).
  cbn [log table errors trace app Z.add].
  destruct (Z.eq_dec (2 ^ Z.of_nat (BITS_PER_LONG K)) 1) as [Hone|Hmore].
  - unfold to_ulong. rewrite Hone. cbn [Z.modulo Z.div_eucl Z.eqb].
    rewrite Zmod_1_r. reflexivity.
  - rewrite to_ulong_small by lia. cbn [Z.eqb].
    apply (absent_pages_until_wrap ino (i_size ino) m
             (mk_loop 1 _ _ _)); cbn [l_index]; try lia.
    intros i Hi. apply Habs. lia.
Qed.

End PagesRead.

(** ** Chunks as the page loop hands them over *)




Section PageChunks.

Context (K : dm_env).




(** Every pass of [dmfs_parse] but the first takes a full page: the state
    that a pass hands on has an index other than [end_index]. *)
Lemma later_passes_take_full_pages (ino : inode) (ei eo : Z)
  (s s' : loop_state) :
  dmfs_parse_body K ino ei eo s = Some (inl s') ->
  chunk_len K ei eo (l_index s') = PAGE_CACHE_SIZE K.
Proof.
  intros H. apply dmfs_parse_body_next in H. destruct H as [_ Hne].
  unfold chunk_len. destruct (Z.eqb_spec (l_index s') ei); [contradiction|].
  reflexivity.
Qed.


End PageChunks.

(** * The properties on the example inputs *)

(** The line "0 100 linear /dev/x 0" handed to the assembler in one
    chunk reaches the line parser as it is; cut into the three chunks
    "0 10", "0 li" and "near /dev/x 0\n" it reaches the line parser as
    "0 10near /dev/x 0": after the second chunk the fill length is 4, not
    8, so the third chunk is written over the second. *)
Theorem three_chunk_split_changes_line :
  List.concat ex_three_chunks = List.concat ex_one_chunk /\
  lines_fed (feed_chunks ex_env ex_st0 ex_linebuf 0 ex_one_chunk) =
    [(0, str "0 100 linear /dev/x 0")] /\
  lines_fed (feed_chunks ex_env ex_st0 ex_linebuf 0 ex_three_chunks) =
    [(0, str "0 10near /dev/x 0")] /\
  option_map (fun r => tmpl (snd (fst r)))
    (feed_chunks ex_env ex_st0 ex_linebuf 0 [str "0 10"; str "0 li"]) =
    Some 4.
Proof. vm_compute. repeat split. Qed.


(** C4.  A file of 4117 bytes: two lines that fill the first page and a
    third line, "150 10 linear /dev/z\n", in the 21 bytes on the second
    page.  [dmfs_parse] hands only the first page to the assembler, parses
    lines 0 and 1, and completes a table of two targets: the loop leaves
    when [index] reaches [end_index], before the pass that would read the
    last, shorter chunk. *)
Theorem short_last_chunk_is_not_read :
  i_size ex_ino_short_last = 4096 + 21 /\
  option_map (fun pg => firstn 21 (kaddr pg)) (i_mapping ex_ino_short_last 1)
    = Some (str "150 10 linear /dev/z" ++ [NL]) /\
  summary (dmfs_parse ex_env ex_ino_short_last) =
    Some (Some (mk_table 2 [99; 149] [(str "linear", 0); (str "linear", 100)]),
          [], [(0, 4096)], [0; 1]).
Proof. vm_compute. repeat split. Qed.

(** C5, counterexample.  On the line "0 100 linear /dev/x 0" the lookup
    succeeds, the target is added, and the line parser returns without a
    call of [dm_put_target_type]. *)
Lemma handle_kept_on_success : ~ handle_released_on_every_path.
Proof.
  intros H.
  specialize (H ex_env ex_st0 0 (str "0 100 linear /dev/x 0") (str "linear")).
  cbv zeta in H.
  assert (Hin : In (EvGetTargetType (str "linear") true)
                  (calls_since ex_st0
                     (dmfs_parse_line ex_env ex_st0 0
                        (str "0 100 linear /dev/x 0")))).
  { vm_compute. auto. }
  destruct (H Hin) as (tt & _ & Hput).
  vm_compute in Hput.
  repeat (destruct Hput as [Hput|Hput]; [discriminate Hput|]).
  exact Hput.
Qed.

(** C8, counterexample.  4095 characters without a newline, on an empty
    line buffer: the text is not parsed, but the assembler records
    "Line too long" and fails. *)
Lemma long_unterminated_tail_is_an_error : ~ unterminated_tail_is_silent.
Proof.
  intros H.
  assert (Hrv : option_map (fun r => fst (fst (fst r)))
                  (dmfs_parse_page ex_env ex_st0
                     (lines_bytes [] ++ ex_long_line) ex_linebuf 0)
                = Some (-1))
    by (vm_compute; reflexivity).
  destruct (H ex_env ex_st0 ex_linebuf 0 [] ex_long_line) as (lb' & E).
  - split; vm_compute; [reflexivity|discriminate].
  - reflexivity.
  - vm_compute. reflexivity.
  - rewrite E in Hrv. discriminate Hrv.
Qed.

(** C9, counterexample.  Two pages; the first is in the page cache but not
    up to date.  [dmfs_parse] returns NULL without handing any chunk to the
    assembler, while without that page it parses the second page and
    returns a table of two targets. *)
Lemma stale_page_stops_parse :
  page_unavailable ex_ino_stale 0 = true /\
  summary (dmfs_parse ex_env ex_ino_stale) = Some (None, [], [], []) /\
  summary (dmfs_parse ex_env (without_page ex_ino_stale 0)) =
    Some (Some (mk_table 2 [99; 149] [(str "linear", 0); (str "linear", 100)]),
          [], [(1, 4096)], [0; 1]) /\
  ~ stale_page_is_passed_over.
Proof.
  split; [reflexivity|].
  split; [vm_compute; reflexivity|].
  split; [vm_compute; reflexivity|].
  intros H.
  specialize (H ex_env ex_ino_stale 0 ex_stale_page eq_refl eq_refl).
  assert (Hs : summary (dmfs_parse ex_env ex_ino_stale) <>
               summary (dmfs_parse ex_env (without_page ex_ino_stale 0)))
    by (vm_compute; discriminate).
  apply Hs. now rewrite H.
Qed.

(** ** Small table files

    On a 32-bit kernel the loop of [dmfs_parse] makes [2 ^ 32] passes over
    a file shorter than a page; [small_file_parse] gives the result without
    running them. *)

Lemma small_file_result (lines : list (list ascii)) :
  lines <> [] ->
  Z.of_nat (List.length (lines_bytes lines)) < 4095 ->
  lines_fit ex_env 0 lines = true ->
  dmfs_parse ex_env (small_file (lines_bytes lines)) =
  Some (dmfs_parse_finish ex_env
          (parse_lines ex_env
             (mk_dstate ex_empty_table []
                [EvGetFreePage true; EvCreateTable true;
                 EvParsePage 0 (Z.of_nat (List.length (lines_bytes lines)))])
             0 lines)).
Proof.
  intros Hne Hlen Hfit.
  assert (Hpos : (0 < List.length (lines_bytes lines))%nat).
  { destruct lines as [|l ls]; [contradiction|].
    unfold lines_bytes. cbn [flat_map]. rewrite !length_app. simpl. lia. }
  apply (small_file_parse ex_env (small_file (lines_bytes lines))
           (mk_page true
              (lines_bytes lines ++
               repeat NUL (4096 - List.length (lines_bytes lines))))
           ex_scratch ex_empty_table lines []).
  - cbn; lia.
  - cbn [small_file i_size]. change (PAGE_SIZE ex_env) with 4096. lia.
  - reflexivity.
  - reflexivity.
  - reflexivity.
  - reflexivity.
  - reflexivity.
  - intros i Hi. cbn [small_file i_mapping].
    destruct (Z.eqb_spec i 0); [lia|reflexivity].
  - cbn [small_file i_size kaddr]. rewrite Nat2Z.id, app_nil_r.
    rewrite firstn_app, firstn_all, Nat.sub_diag. cbn [firstn].
    apply app_nil_r.
  - exact Hfit.
  - reflexivity.
  - change (PAGE_SIZE ex_env) with 4096. cbn [List.length]. lia.
Qed.

(** "0 100 linear /dev/x 0\n100 50 linear /dev/y 0\n": a table of the two
    ranges [0, 99] and [100, 149]. *)
Example two_ranges_parse :
  summary (dmfs_parse ex_env (small_file (lines_bytes ex_two_ranges))) =
  Some (Some (mk_table 2 [99; 149] [(str "linear", 0); (str "linear", 100)]),
        [], [(0, 45)], [0; 1]).
Proof.
  rewrite small_file_result;
    [vm_compute; reflexivity | discriminate | vm_compute; reflexivity
    | vm_compute; reflexivity].
Qed.

(** "0 100 linear /dev/x 0\n50 10 linear /dev/y 0\n": one error, on the
    second line, whose start is not 100. *)
Example gap_parse :
  option_map r_errors (dmfs_parse ex_env (small_file (lines_bytes ex_gap))) =
  Some [(1, "Gap in table"%string)].
Proof.
  rewrite small_file_result;
    [vm_compute; reflexivity | discriminate | vm_compute; reflexivity
    | vm_compute; reflexivity].
Qed.

(** "0 100 bogus\n": the error "Target type unknown" and no table. *)
Example bogus_parse :
  summary (dmfs_parse ex_env (small_file (lines_bytes ex_bogus))) =
  Some (None, [(0, "Target type unknown"%string)], [(0, 12)], [0]).
Proof.
  rewrite small_file_result;
    [vm_compute; reflexivity | discriminate | vm_compute; reflexivity
    | vm_compute; reflexivity].
Qed.

(** ** Instances *)



(** C3 on a page that holds 4095 characters and then a newline. *)
Lemma line_too_long_witness :
  linebuf_ok ex_env (l_lb ex_loop0) /\
  no_newline ex_long_line = true /\
  Z.of_nat (List.length ex_long_line) = PAGE_SIZE ex_env - 1 /\
  dmfs_parse_pages ex_env ex_ino_long 1 0 ex_loop0 =
    Some (mk_result None [(0, "Line too long"%string)]
            [EvGetFreePage true; EvCreateTable true; EvParsePage 0 4096;
             EvPrintk "dmfs_parse: Parse error"; EvFreePage; EvPutTable]).
Proof.
  assert (Hok : linebuf_ok ex_env (l_lb ex_loop0))
    by (split; vm_compute; [reflexivity|discriminate]).
  assert (Hnl : no_newline ex_long_line = true) by (vm_compute; reflexivity).
  assert (Hlen : Z.of_nat (List.length ex_long_line) = PAGE_SIZE ex_env - 1)
    by (vm_compute; reflexivity).
  split; [exact Hok|]. split; [exact Hnl|]. split; [exact Hlen|].
  apply (line_too_long_aborts_parse ex_env ex_ino_long 1 0 ex_loop0
           (mk_page true (ex_long_line ++ [NL])) [] ex_long_line [NL]).
  - reflexivity.
  - reflexivity.
  - exact Hok.
  - vm_compute. reflexivity.
  - reflexivity.
  - exact Hnl.
  - exact Hlen.
Defined.

(** C5 (amended) on the line "0 100 faulty", whose constructor fails. *)
Lemma handle_released_witness :
  In (EvGetTargetType (str "faulty") true)
    (calls_since ex_st0 (dmfs_parse_line ex_env ex_st0 0 (str "0 100 faulty")))
  /\ exists ttype,
       dm_get_target_type ex_env (str "faulty") = Some ttype.
Proof.
  assert (Hin : In (EvGetTargetType (str "faulty") true)
                  (calls_since ex_st0
                     (dmfs_parse_line ex_env ex_st0 0 (str "0 100 faulty"))))
    by (vm_compute; auto).
  split; [exact Hin|].
  destruct (handle_released_on_error_paths ex_env ex_st0 0 _ _ Hin)
    as (ttype & Hreg & _).
  exists ttype. exact Hreg.
Defined.

(** C6 on the line "0 100 linear /dev/x 0" and a table that is full. *)
Lemma append_failure_witness :
  In (EvAddTarget 99 (str "linear") 0 (-12))
    (calls_since ex_st0
       (dmfs_parse_line ex_env_full ex_st0 0 (str "0 100 linear /dev/x 0")))
  /\ -12 <> 0
  /\ errors_since ex_st0
       (dmfs_parse_line ex_env_full ex_st0 0 (str "0 100 linear /dev/x 0")) =
     [(0, "Error adding target to table"%string)].
Proof.
  assert (Hin : In (EvAddTarget 99 (str "linear") 0 (-12))
                  (calls_since ex_st0
                     (dmfs_parse_line ex_env_full ex_st0 0
                        (str "0 100 linear /dev/x 0"))))
    by (vm_compute; auto 6).
  assert (Hrv : -12 <> 0) by lia.
  destruct (append_failure_destructs_context ex_env_full ex_st0 0 _ _ _ _ _
              Hin Hrv) as (He & _).
  repeat split; assumption.
Defined.

(** C7 on the line "0 100 bogus". *)
Lemma unknown_target_type_witness :
  In (EvGetTargetType (str "bogus") false)
    (calls_since ex_st0 (dmfs_parse_line ex_env ex_st0 0 (str "0 100 bogus")))
  /\ errors_since ex_st0
       (dmfs_parse_line ex_env ex_st0 0 (str "0 100 bogus")) =
     [(0, "Target type unknown"%string)].
Proof.
  assert (Hin : In (EvGetTargetType (str "bogus") false)
                  (calls_since ex_st0
                     (dmfs_parse_line ex_env ex_st0 0 (str "0 100 bogus"))))
    by (vm_compute; auto).
  destruct (unknown_target_type_no_constructor ex_env ex_st0 0 _ _ Hin)
    as (He & _).
  split; assumption.
Defined.

(** C8 (amended) on a file shorter than a page, alone in the page cache:
    two lines followed by "150 10". *)
Lemma unterminated_tail_witness :
  0 <= 0 < 2 ^ Z.of_nat (BITS_PER_LONG ex_env) /\
  no_newline (str "150 10") = true /\
  exists r,
    dmfs_parse_pages ex_env ex_ino_short 0 51 ex_loop0 = Some r /\
    r_errors r = [] /\
    parsed_lines (r_trace r) =
      [(0, str "0 100 linear /dev/x 0"); (1, str "100 50 linear /dev/y 0")].
Proof.
  assert (Hei : 0 <= 0 < 2 ^ Z.of_nat (BITS_PER_LONG ex_env))
    by (vm_compute; split; [discriminate|reflexivity]).
  assert (Hnl : no_newline (str "150 10") = true) by reflexivity.
  assert (Hok : linebuf_ok ex_env (l_lb ex_loop0))
    by (split; vm_compute; [reflexivity|discriminate]).
  assert (Habs : forall j,
             1 <= j <= passes_left ex_env 0 (l_index ex_loop0) ->
             i_mapping ex_ino_short
               (to_ulong ex_env (l_index ex_loop0 + j)) = None).
  { intros j Hj.
    assert (Hleft : passes_left ex_env 0 (l_index ex_loop0) = 4294967295)
      by reflexivity.
    rewrite Hleft in Hj. cbn [ex_loop0 l_index]. unfold to_ulong.
    change (2 ^ Z.of_nat (BITS_PER_LONG ex_env)) with 4294967296.
    rewrite Z.mod_small by lia.
    cbn [ex_ino_short small_file i_mapping].
    destruct (Z.eqb_spec (0 + j) 0); [lia|reflexivity]. }
  split; [exact Hei|]. split; [exact Hnl|].
  destruct (unterminated_tail_is_dropped ex_env ex_ino_short 0 51 ex_loop0
              (mk_page true
                 ((lines_bytes ex_two_ranges ++ str "150 10") ++
                  repeat NUL (4096 - 51)))
              ex_two_ranges (str "150 10") Hei Habs)
    as (r & E & _ & Herr & Htr).
  - reflexivity.
  - reflexivity.
  - exact Hok.
  - vm_compute. reflexivity.
  - vm_compute. reflexivity.
  - exact Hnl.
  - vm_compute. reflexivity.
  - exists r. split; [exact E|]. rewrite Herr, Htr.
    split; vm_compute; reflexivity.
Defined.

(** C9 (amended) on a page that is not in the page cache and on one that is
    not up to date. *)
Lemma unavailable_page_witness :
  (page_unavailable (without_page ex_ino_stale 0) 0 = true /\
   dmfs_parse_pages_fuel ex_env 2 (without_page ex_ino_stale 0) 2 0 ex_loop0 =
   dmfs_parse_pages_fuel ex_env 1 (without_page ex_ino_stale 0) 2 0
     (mk_loop 1 (l_st ex_loop0) (l_lb ex_loop0) 0))
  /\
  (page_unavailable ex_ino_stale 0 = true /\
   dmfs_parse_pages_fuel ex_env 1 ex_ino_stale 2 0 ex_loop0 =
   Some (mk_result None []
           [EvGetFreePage true; EvCreateTable true;
            EvPrintk "dmfs_parse: Page not uptodate";
            EvFreePage; EvPutTable])).
Proof.
  split; (split; [reflexivity|]).
  - rewrite (unavailable_page_skipped_or_fatal ex_env
               (without_page ex_ino_stale 0) 2 0 ex_loop0 1 eq_refl).
    vm_compute. reflexivity.
  - rewrite (unavailable_page_skipped_or_fatal ex_env ex_ino_stale 2 0
               ex_loop0 0 eq_refl).
    vm_compute. reflexivity.
Defined.

(** C10 on an inode of size 0. *)
Lemma empty_content_witness :
  i_size ex_ino_empty = 0 /\
  dmfs_parse ex_env ex_ino_empty = Some (mk_result None [] []).
Proof.
  split; [reflexivity|].
  apply (empty_content_fails_at_once ex_env ex_ino_empty). reflexivity.
Defined.

(** * Further properties of the code *)

(** ** The tokenizer on texts *)

Lemma all_delims_app (a b : list ascii) :
  all_delims (a ++ b) = all_delims a && all_delims b.
Proof. apply forallb_app. Qed.

Lemma next_token_str_blank (s : list ascii) :
  all_delims s = true -> next_token_str s = (None, None).
Proof.
  induction s as [|c s IH]; simpl; [reflexivity|].
  intros H. apply andb_true_iff in H. destruct H as [Hc Hs].
  rewrite Hc. auto.
Qed.

Lemma next_token_str_skip (pre s : list ascii) :
  all_delims pre = true -> next_token_str (pre ++ s) = next_token_str s.
Proof.
  induction pre as [|c pre IH]; simpl; [reflexivity|].
  intros H. apply andb_true_iff in H. destruct H as [Hc Hs].
  rewrite Hc. auto.
Qed.

Lemma strsep_split_token (tok : list ascii) (d : ascii) (rest : cursor) :
  no_delim tok = true ->
  (rest <> None -> is_delim d = true) ->
  strsep_split (tok ++ after_token d rest) = (tok, rest).
Proof.
  intros Htok Hd. induction tok as [|c tok IH]; simpl in *.
  - destruct rest as [r|]; simpl; [|reflexivity].
    rewrite Hd by discriminate. reflexivity.
  - apply andb_true_iff in Htok. destruct Htok as [Hc Htok].
    apply negb_true_iff in Hc. rewrite Hc, IH by assumption. reflexivity.
Qed.

Lemma strsep_split_parts (s : list ascii) :
  forall tok rest,
    strsep_split s = (tok, rest) ->
    no_delim tok = true /\
    exists d, (rest <> None -> is_delim d = true) /\
              s = tok ++ after_token d rest.
Proof.
  induction s as [|c s IH]; simpl; intros tok rest H.
  - inversion H; subst. split; [reflexivity|]. exists SPACE.
    split; [intros E; contradiction|reflexivity].
  - destruct (is_delim c) eqn:Hc.
    + inversion H; subst. split; [reflexivity|]. exists c. auto.
    + destruct (strsep_split s) as [t r]. inversion H; subst.
      destruct (IH t rest eq_refl) as (Ht & d & Hd & Hs).
      split; [simpl; rewrite Hc; exact Ht|].
      exists d. split; [exact Hd|]. simpl. now rewrite <- Hs.
Qed.

(** X1.  [next_token] returns the token [tok] and leaves the cursor at
    [rest] exactly when the text is: any number of delimiters, then [tok],
    which is not empty and holds no delimiter, then either the end of the
    text (the cursor is left null) or one delimiter followed by [rest]. *)
Theorem next_token_splits (s tok : list ascii) (rest : cursor) :
  next_token (Some s) = (Some tok, rest) <->
  tok <> [] /\ no_delim tok = true /\
  exists pre d,
    all_delims pre = true /\
    (rest <> None -> is_delim d = true) /\
    s = pre ++ tok ++ after_token d rest.
Proof.
  split.
  - cbn [next_token]. induction s as [|c s IH]; simpl; [discriminate|].
    destruct (is_delim c) eqn:Hc.
    + intros H. destruct (IH H) as (Hne & Htok & pre & d & Hpre & Hd & Hs).
      split; [exact Hne|]. split; [exact Htok|].
      exists (c :: pre), d. simpl. rewrite Hc, Hpre, Hs. auto.
    + destruct (strsep_split s) as [t r] eqn:Hsp. intros H.
      inversion H; subst.
      destruct (strsep_split_parts s t rest Hsp) as (Ht & d & Hd & Hs).
      split; [discriminate|].
      split; [simpl; rewrite Hc; exact Ht|].
      exists [], d. simpl. rewrite <- Hs. auto.
  - intros (Hne & Htok & pre & d & Hpre & Hd & Hs). subst s.
    cbn [next_token]. rewrite next_token_str_skip by assumption.
    destruct tok as [|c tok]; [contradiction|].
    pose proof Htok as Htok'. simpl in Htok'.
    apply andb_true_iff in Htok'. destruct Htok' as [Hc _].
    apply negb_true_iff in Hc.
    cbn [app next_token_str]. rewrite Hc.
    change (c :: tok ++ after_token d rest)
      with ((c :: tok) ++ after_token d rest).
    unfold strsep. now rewrite strsep_split_token.
Qed.

(** X2.  [next_token] returns null exactly on a text made of delimiters
    only (the empty text included), and then leaves the cursor null. *)
Theorem next_token_null_iff_blank (s : list ascii) :
  (fst (next_token (Some s)) = None <-> all_delims s = true) /\
  (all_delims s = true -> next_token (Some s) = (None, None)).
Proof.
  split; [|apply next_token_str_blank].
  split; [|intros H; cbn [next_token]; now rewrite next_token_str_blank].
  cbn [next_token]. induction s as [|c s IH]; simpl; [reflexivity|].
  destruct (is_delim c) eqn:Hc; [exact IH|].
  destruct (strsep_split s) as [t r]. discriminate.
Qed.

Lemma next_token_then_more (pre tok more : list ascii) (d : ascii) :
  all_delims pre = true -> tok <> [] -> no_delim tok = true ->
  is_delim d = true ->
  next_token (Some (pre ++ tok ++ d :: more)) = (Some tok, Some more).
Proof.
  intros Hpre Hne Htok Hd. apply next_token_splits.
  split; [exact Hne|]. split; [exact Htok|].
  exists pre, d. simpl. auto.
Qed.

Lemma next_token_last (pre tok post : list ascii) :
  all_delims pre = true -> tok <> [] -> no_delim tok = true ->
  all_delims post = true ->
  exists p1,
    next_token (Some (pre ++ tok ++ post)) = (Some tok, p1) /\
    next_token p1 = (None, None).
Proof.
  intros Hpre Hne Htok Hpost. destruct post as [|d post].
  - exists None. split; [|reflexivity]. apply next_token_splits.
    split; [exact Hne|]. split; [exact Htok|].
    exists pre, SPACE. simpl. split; [exact Hpre|].
    split; [intros E; contradiction|reflexivity].
  - simpl in Hpost. apply andb_true_iff in Hpost. destruct Hpost as [Hd Hpost].
    exists (Some post). split; [now apply next_token_then_more|].
    cbn [next_token]. now apply next_token_str_blank.
Qed.

(** ** The line parser: which error a line gets *)

Section LineErrors.

Context (K : dm_env).

(** X3.  A line that is empty or holds only spaces and tabs is an error:
    the line parser records exactly "No start argument" for it, makes no
    call and leaves the table as it was. *)
Theorem blank_line_is_an_error (st : dstate) (num : Z) (line : list ascii) :
  all_delims line = true ->
  let st' := dmfs_parse_line K st num line in
  errors st' = errors st ++ [(num, "No start argument"%string)] /\
  calls_since st st' = [EvParseLine num line] /\
  table st' = table st.
Proof.
  intros Hblank st'. subst st'. unfold dmfs_parse_line, calls_since.
  cbn [next_token]. rewrite (next_token_str_blank line Hblank).
  cbn [dmfs_add_error log errors trace table].
  repeat split. apply skipn_length_app.
Qed.

(** X4.  A line with one token only (delimiters may come before and after
    it) gets exactly the error "No size argument", whatever the token is;
    no call is made and the table stays as it was. *)
Theorem one_token_line_has_no_size (st : dstate) (num : Z)
  (pre tok post : list ascii) :
  all_delims pre = true -> tok <> [] -> no_delim tok = true ->
  all_delims post = true ->
  let line := pre ++ tok ++ post in
  let st' := dmfs_parse_line K st num line in
  errors st' = errors st ++ [(num, "No size argument"%string)] /\
  calls_since st st' = [EvParseLine num line] /\
  table st' = table st.
Proof.
  intros Hpre Hne Htok Hpost line st'. subst st' line.
  destruct (next_token_last pre tok post Hpre Hne Htok Hpost)
    as (p1 & H1 & H2).
  unfold dmfs_parse_line, calls_since. rewrite H1, H2.
  cbn [dmfs_add_error log errors trace table].
  repeat split. apply skipn_length_app.
Qed.

(** X5.  A line with two tokens only, whose start is the expected one,
    gets exactly the error "No target type"; no call is made and the table
    stays as it was. *)
Theorem two_token_line_has_no_target_type (st : dstate) (num : Z)
  (pre tok1 mid tok2 post : list ascii) (d : ascii) :
  all_delims pre = true -> tok1 <> [] -> no_delim tok1 = true ->
  is_delim d = true -> all_delims mid = true ->
  tok2 <> [] -> no_delim tok2 = true -> all_delims post = true ->
  to_offset K (simple_strtoul K tok1) = start_of_next_range K (table st) ->
  let line := pre ++ tok1 ++ d :: mid ++ tok2 ++ post in
  let st' := dmfs_parse_line K st num line in
  errors st' = errors st ++ [(num, "No target type"%string)] /\
  calls_since st st' = [EvParseLine num line] /\
  table st' = table st.
Proof.
  intros Hpre Hne1 Htok1 Hd Hmid Hne2 Htok2 Hpost Hstart line st'.
  subst st' line.
  pose proof (next_token_then_more pre tok1 (mid ++ tok2 ++ post) d
                Hpre Hne1 Htok1 Hd) as H1.
  destruct (next_token_last mid tok2 post Hmid Hne2 Htok2 Hpost)
    as (p2 & H2 & H3).
  unfold dmfs_parse_line, calls_since. rewrite H1, H2, H3.
  cbn [log table]. rewrite Hstart, Z.eqb_refl.
  cbn [negb dmfs_add_error log errors trace table].
  repeat split. apply skipn_length_app.
Qed.

End LineErrors.

(** ** The line parser: one outcome per line *)

Lemma calls_of_line (K : dm_env) (st : dstate) (num : Z) (line : list ascii) :
  calls_since st (dmfs_parse_line K st num line) =
  trace (dmfs_parse_line K (mk_dstate (table st) [] []) num line).
Proof.
  unfold calls_since.
  pose proof (dmfs_parse_line_frame K st num line) as E. cbv zeta in E.
  rewrite E. simpl. apply skipn_length_app.
Qed.

Lemma errors_of_line (K : dm_env) (st : dstate) (num : Z) (line : list ascii) :
  errors_since st (dmfs_parse_line K st num line) =
  errors (dmfs_parse_line K (mk_dstate (table st) [] []) num line).
Proof.
  unfold errors_since.
  pose proof (dmfs_parse_line_frame K st num line) as E. cbv zeta in E.
  rewrite E. simpl. apply skipn_length_app.
Qed.

Lemma table_of_line (K : dm_env) (st : dstate) (num : Z) (line : list ascii) :
  table (dmfs_parse_line K st num line) =
  table (dmfs_parse_line K (mk_dstate (table st) [] []) num line).
Proof.
  pose proof (dmfs_parse_line_frame K st num line) as E. cbv zeta in E.
  rewrite E. reflexivity.
Qed.

(** Splits a statement about one call of the line parser into the ways
    through the function. *)
Ltac line_paths :=
  cbv zeta;
  rewrite ?calls_of_line, ?errors_of_line;
  try rewrite table_of_line;
  unfold dmfs_parse_line, dmfs_add_error, log, set_table; simpl;
  break_line; simpl.

Ltac in_events H :=
  simpl in H;
  repeat match type of H with
  | _ \/ _ => destruct H as [H|H]
  | False => destruct H
  end;
  try discriminate H.

Section LineOutcome.

Context (K : dm_env).

(** X6.  One call of the line parser records either no error or exactly
    one, for its own line number and with one of the seven messages.  It
    records none exactly when its last call is a [dm_table_add_target] that
    returned 0; when it records one, no append of the line returned 0, and
    the table is as it was unless the message is that of a failed
    append. *)
Theorem line_has_one_outcome (st : dstate) (num : Z) (line : list ascii) :
  let st' := dmfs_parse_line K st num line in
  let calls := calls_since st st' in
  (errors_since st st' = [] /\
   exists pre high name context,
     calls = pre ++ [EvAddTarget high name context 0])
  \/
  (exists msg,
     errors_since st st' = [(num, msg)] /\
     In msg line_messages /\
     filter is_added calls = [] /\
     (msg <> "Error adding target to table"%string -> table st' = table st)).
Proof.
  line_paths;
    try (right; eexists; split; [reflexivity|];
         split; [simpl; auto 10|];
         split; [try reflexivity|intros; try reflexivity]).
  - left. split; [reflexivity|]. apply Z.eqb_eq in Heqb1. subst.
    eexists [_; _; _]. simpl. eauto.
  - rewrite Heqb1. reflexivity.
  - exfalso; auto.
Qed.

(** X7.  When the constructor of a line's target type returns non-zero,
    the line parser gives the registry handle back, makes no append and
    calls no destructor, records exactly
    "This message should never appear (constructor error)" for the line,
    and leaves the table as it was. *)
Theorem constructor_failure_is_reported (st : dstate) (num : Z)
  (line name : list ascii) (start size rv : Z) (args : cursor) :
  let st' := dmfs_parse_line K st num line in
  In (EvCtr name start size args rv) (calls_since st st') ->
  rv <> 0 ->
  errors_since st st' =
    [(num, "This message should never appear (constructor error)"%string)] /\
  table st' = table st /\
  exists tok3,
    calls_since st st' =
      [EvParseLine num line; EvGetTargetType tok3 true;
       EvCtr name start size args rv; EvPutTargetType name].
Proof.
  line_paths; intros H Hrv; in_events H; inversion H; subst.
  - apply Z.eqb_eq in Heqb0. contradiction.
  - apply Z.eqb_eq in Heqb0. contradiction.
  - repeat split. eexists. reflexivity.
Qed.

(** X8.  Every [dm_table_add_target] that the line parser calls is for the
    range that starts right behind the table: the start read from the
    first token equals [start_of_next_range], and the high passed is
    [start_of_next_range + (size - 1)] in [offset_t], with [size] read
    from the second token (a size of 0 is not refused: it gives a high one
    below the start). *)
Theorem appended_range_continues_table (st : dstate) (num : Z)
  (line name : list ascii) (high context rv : Z) :
  let st' := dmfs_parse_line K st num line in
  In (EvAddTarget high name context rv) (calls_since st st') ->
  exists tok1 p1 tok2 p2,
    next_token (Some line) = (Some tok1, p1) /\
    next_token p1 = (Some tok2, p2) /\
    to_offset K (simple_strtoul K tok1) = start_of_next_range K (table st) /\
    high =
      to_offset K
        (start_of_next_range K (table st) +
         (to_offset K (simple_strtoul K tok2) - 1)).
Proof.
  line_paths; intros H; in_events H; inversion H; subst;
    apply negb_false_iff in Heqb; apply Z.eqb_eq in Heqb;
    do 4 eexists; (split; [reflexivity|]); (split; [eassumption|]);
    (split; [exact Heqb|]); rewrite Heqb; reflexivity.
Qed.

End LineOutcome.

(** ** What [dmfs_copy] copies *)

Lemma is_nl_true (c : ascii) : is_nl c = true -> c = NL.
Proof. unfold is_nl. apply Ascii.eqb_eq. Qed.

(** The parts of a call of [dmfs_copy]: [k] plain bytes, then the newline if
    the flag is set. *)
Lemma dmfs_copy_parts (src : list ascii) :
  forall (pre old : list ascii) (dstlen copied : Z) (flag : bool)
         (dst' : list ascii),
    0 <= dstlen <= Z.of_nat (List.length old) ->
    dmfs_copy (pre ++ old) (Z.of_nat (List.length pre)) dstlen src
      = (copied, flag, dst') ->
    exists k : nat,
      copied = Z.of_nat k + (if flag then 1 else 0) /\
      copied <= dstlen /\
      copied <= Z.of_nat (List.length src) /\
      no_newline (firstn k src) = true /\
      (flag = true -> nth_error src k = Some NL) /\
      (flag = false ->
       Z.of_nat k = Z.min dstlen (Z.of_nat (List.length src))) /\
      dst' =
        pre ++ firstn k src ++ (if flag then [NUL] else []) ++
        skipn (Z.to_nat copied) old.
Proof.
  induction src as [|c src IH];
    intros pre old dstlen copied flag dst' Hroom H;
    cbn [dmfs_copy List.length] in *.
  - injection H as <- <- <-. exists 0%nat. cbn.
    repeat split; try lia; try discriminate; try (intros _; lia).
  - destruct (Z.eqb_spec dstlen 0) as [E|Hd].
    { injection H as <- <- <-. exists 0%nat. cbn [firstn app skipn Z.to_nat].
      repeat split; try lia; try discriminate; try (intros _; lia). }
    destruct old as [|o old]; [simpl in Hroom; lia|].
    destruct (is_nl c) eqn:Hc.
    + injection H as <- <- <-. exists 0%nat.
      rewrite store_after_prefix.
      repeat split; try lia; try discriminate.
      intros _. apply is_nl_true in Hc. now subst.
    + rewrite store_after_prefix in H.
      replace (pre ++ c :: old) with ((pre ++ [c]) ++ old) in H
        by (rewrite <- app_assoc; reflexivity).
      replace (Z.of_nat (List.length pre) + 1)
        with (Z.of_nat (List.length (pre ++ [c]))) in H
        by (rewrite length_app; simpl; lia).
      destruct (dmfs_copy ((pre ++ [c]) ++ old)
                  (Z.of_nat (List.length (pre ++ [c]))) (dstlen - 1) src)
        as [[n f] d] eqn:Hrec.
      injection H as <- <- <-.
      destruct (IH (pre ++ [c]) old (dstlen - 1) n f d) as
        (k & Hn & Hle & Hsrc & Hnl & Hflag & Hmin & Hd');
        [cbn [List.length] in Hroom; lia|exact Hrec|].
      exists (S k). cbn [firstn nth_error].
      split; [destruct f; lia|]. split; [lia|]. split; [lia|].
      split; [unfold no_newline in *; cbn [forallb]; rewrite Hc; exact Hnl|].
      split; [exact Hflag|].
      split; [intros Hf; specialize (Hmin Hf); lia|].
      assert (Hn0 : 0 <= n) by (destruct f; lia).
      rewrite Hd', <- app_assoc. cbn [app].
      replace (Z.to_nat (n + 1)) with (S (Z.to_nat n)) by lia.
      reflexivity.
Qed.

(** X9.  With [dstlen >= 0] and [dstlen] bytes of room behind the write
    position, [dmfs_copy] takes [k] bytes that are not newlines and then,
    if the flag is set, one newline, which it stores as NUL: it returns
    [copied = k + 1] with the flag, or [copied = k = min dstlen srclen]
    without it.  It never returns more than [dstlen] or [srclen], reads
    nothing behind the newline, and changes the buffer only in the
    [copied] bytes from the write position on. *)
Theorem dmfs_copy_spec (src : list ascii) :
  forall (pre old : list ascii) (dstlen copied : Z) (flag : bool)
         (dst' : list ascii),
    0 <= dstlen <= Z.of_nat (List.length old) ->
    dmfs_copy (pre ++ old) (Z.of_nat (List.length pre)) dstlen src
      = (copied, flag, dst') ->
    exists k : nat,
      copied = Z.of_nat k + (if flag then 1 else 0) /\
      copied <= dstlen /\
      copied <= Z.of_nat (List.length src) /\
      no_newline (firstn k src) = true /\
      (flag = true -> nth_error src k = Some NL) /\
      (flag = false ->
       Z.of_nat k = Z.min dstlen (Z.of_nat (List.length src))) /\
      dst' =
        pre ++ firstn k src ++ (if flag then [NUL] else []) ++
        skipn (Z.to_nat copied) old.
Proof. apply dmfs_copy_parts. Qed.

(** ** The line buffer across calls of the assembler *)

Section LineBuffer.

Context (K : dm_env).

(** The buffer taken apart at the fill length, for a fill length below the
    last slot. *)
Lemma linebuf_parts (lb : linebuf) :
  linebuf_ok K lb -> tmpl lb <= PAGE_SIZE K - 1 ->
  let r := Z.to_nat (tmpl lb) in
  tmp lb = firstn r (tmp lb) ++ skipn r (tmp lb) /\
  Z.of_nat (List.length (firstn r (tmp lb))) = tmpl lb /\
  Z.of_nat (List.length (skipn r (tmp lb))) = PAGE_SIZE K - tmpl lb.
Proof.
  intros Hok Hle. apply (linebuf_split K lb Hok). lia.
Qed.

(** A chunk without a newline that does not fill the buffer: it is written
    at the fill length, and the new fill length is the length of the chunk
    alone. *)
Lemma assembler_plain_chunk (st : dstate) (lb : linebuf) (num : Z)
  (chunk : list ascii) :
  linebuf_ok K lb ->
  no_newline chunk = true ->
  tmpl lb + Z.of_nat (List.length chunk) < PAGE_SIZE K - 1 ->
  let r := Z.to_nat (tmpl lb) in
  let lb' :=
    mk_linebuf
      (firstn r (tmp lb) ++ chunk ++
       skipn (List.length chunk) (skipn r (tmp lb)))
      (Z.of_nat (List.length chunk)) in
  dmfs_parse_page K st chunk lb num = Some (0, st, lb', num) /\
  linebuf_ok K lb'.
Proof.
  intros Hok Hnl Hlt r lb'.
  destruct (linebuf_parts lb Hok) as (Hsplit & Hpre & Hold);
    [destruct Hok; lia|].
  fold r in Hsplit, Hpre, Hold. split.
  - rewrite dmfs_parse_page_eq.
    rewrite Hsplit at 1. rewrite <- Hpre at 1.
    rewrite dmfs_copy_tail by (auto; lia).
    rewrite Nat2Z.id, skipn_all.
    destruct (Z.eqb_spec (tmpl lb + Z.of_nat (List.length chunk))
                (PAGE_SIZE K - 1)) as [E|_]; [lia|].
    reflexivity.
  - subst lb'. destruct Hok as [Hlen Hpos]. split; cbn [tmp tmpl]; [|lia].
    rewrite !length_app, length_skipn. lia.
Qed.

(** A line with its newline that fits: the text handed to the line parser
    and the buffer afterwards. *)
Lemma assembler_line_chunk (st : dstate) (lb : linebuf) (num : Z)
  (l rest : list ascii) :
  linebuf_ok K lb ->
  line_fits K (tmpl lb) l = true ->
  let r := Z.to_nat (tmpl lb) in
  let st1 := dmfs_parse_line K st num (cstring (firstn r (tmp lb) ++ l)) in
  let lb1 :=
    mk_linebuf
      (firstn r (tmp lb) ++ l ++
       NUL :: skipn (S (List.length l)) (skipn r (tmp lb))) 0 in
  dmfs_parse_page K st (l ++ NL :: rest) lb num =
  match rest with
  | [] => Some (0, st1, lb1, num + 1)
  | _ :: _ => dmfs_parse_page K st1 rest lb1 (num + 1)
  end.
Proof.
  intros Hok Hfit r st1 lb1.
  apply line_fits_spec in Hfit. destruct Hfit as [Hnl Hlt].
  destruct (linebuf_parts lb Hok) as (Hsplit & Hpre & Hold);
    [destruct Hok; lia|].
  fold r in Hsplit, Hpre, Hold.
  rewrite dmfs_parse_page_eq.
  rewrite Hsplit at 1. rewrite <- Hpre at 1.
  rewrite dmfs_copy_line by (auto; lia).
  rewrite skipn_line.
  destruct (Z.eqb_spec (tmpl lb + (Z.of_nat (List.length l) + 1))
              (PAGE_SIZE K - 1)) as [E|_]; [lia|].
  replace (firstn r (tmp lb) ++ l ++
           NUL :: skipn (S (List.length l)) (skipn r (tmp lb)))
    with ((firstn r (tmp lb) ++ l) ++
          NUL :: skipn (S (List.length l)) (skipn r (tmp lb))) in *
    by (rewrite <- app_assoc; reflexivity).
  rewrite cstring_app_nul. cbv zeta.
  subst st1 lb1.
  replace (firstn r (tmp lb) ++ l ++
           NUL :: skipn (S (List.length l)) (skipn r (tmp lb)))
    with ((firstn r (tmp lb) ++ l) ++
          NUL :: skipn (S (List.length l)) (skipn r (tmp lb)))
    by (rewrite <- app_assoc; reflexivity).
  destruct rest; reflexivity.
Qed.

(** X10.  From a line buffer of one page with a fill length below
    [PAGE_SIZE - 1], every call of [dmfs_parse_page] returns 0 or -1 and
    leaves such a buffer again, so each call of [dmfs_copy] has room for
    at least one byte and never more room than the page has left; the line
    counter never goes back; and a return of -1 has "Line too long" for
    the current line number as the last error recorded. *)
Theorem line_buffer_stays_in_page (st st' : dstate) (buf : list ascii)
  (lb lb' : linebuf) (num num' rv : Z) :
  linebuf_ok K lb ->
  tmpl lb < PAGE_SIZE K - 1 ->
  dmfs_parse_page K st buf lb num = Some (rv, st', lb', num') ->
  linebuf_ok K lb' /\ tmpl lb' < PAGE_SIZE K - 1 /\
  num <= num' /\
  (rv = 0 \/
   rv = -1 /\
   exists errs, errors st' = errs ++ [(num', "Line too long"%string)]).
Proof.
  unfold dmfs_parse_page. generalize (S (List.length buf)) as fuel.
  intros fuel. revert st buf lb num.
  induction fuel as [|fuel IH]; intros st buf lb num Hok Hlt H;
    [discriminate|].
  cbn [dmfs_parse_page_loop] in H.
  destruct (linebuf_parts lb Hok) as (Hsplit & Hpre & Hold); [lia|].
  set (pre := firstn (Z.to_nat (tmpl lb)) (tmp lb)) in *.
  set (old := skipn (Z.to_nat (tmpl lb)) (tmp lb)) in *.
  destruct (dmfs_copy (tmp lb) (tmpl lb) (PAGE_SIZE K - tmpl lb - 1) buf)
    as [[copied flag] tmp'] eqn:Hc.
  pose proof (dmfs_copy_buffer_length _ _ _ _ _ _ _ Hc) as Hlen.
  rewrite Hsplit in Hc at 1. rewrite <- Hpre in Hc at 1.
  apply dmfs_copy_parts in Hc; [|lia].
  destruct Hc as (k & Hcop & Hle & _).
  assert (Hk : 0 <= copied) by (destruct flag; lia).
  destruct Hok as [Hpage Hpos].
  destruct (Z.eqb_spec (tmpl lb + copied) (PAGE_SIZE K - 1)) as [E|Hne].
  - injection H as <- <- <- <-.
    split; [split; cbn [tmp tmpl]; lia|].
    split; [cbn [tmpl]; lia|]. split; [lia|].
    right. split; [reflexivity|]. eexists. reflexivity.
  - assert (Hnext : forall st1 lb1 num1,
              linebuf_ok K lb1 -> tmpl lb1 < PAGE_SIZE K - 1 ->
              num <= num1 ->
              (if 0 <? Z.of_nat (List.length (skipn (Z.to_nat copied) buf))
               then dmfs_parse_page_loop K fuel st1
                      (skipn (Z.to_nat copied) buf) lb1 num1
               else Some (0, st1, lb1, num1)) = Some (rv, st', lb', num') ->
              linebuf_ok K lb' /\ tmpl lb' < PAGE_SIZE K - 1 /\
              num <= num' /\
              (rv = 0 \/
               rv = -1 /\
               exists errs,
                 errors st' = errs ++ [(num', "Line too long"%string)])).
    { intros st1 lb1 num1 Hok1 Hlt1 Hnum1 H1.
      destruct (0 <? Z.of_nat (List.length (skipn (Z.to_nat copied) buf))).
      - destruct (IH st1 _ lb1 num1 Hok1 Hlt1 H1) as (A & B & C & D).
        repeat split; try apply A; auto; lia.
      - injection H1 as <- <- <- <-.
        repeat split; try apply Hok1; auto. }
    destruct flag.
    + apply (Hnext _ _ _) in H; auto; cbn [tmp tmpl]; try lia.
      split; cbn [tmp tmpl]; lia.
    + apply (Hnext _ _ _) in H; auto; cbn [tmp tmpl]; try lia.
      split; cbn [tmp tmpl]; lia.
Qed.

End LineBuffer.

(** ** Lines cut into chunks *)

Section Chunks.

Context (K : dm_env).

Lemma linebuf_empty_parts (lb : linebuf) :
  tmpl lb = 0 ->
  firstn (Z.to_nat (tmpl lb)) (tmp lb) = [] /\
  skipn (Z.to_nat (tmpl lb)) (tmp lb) = tmp lb.
Proof. intros E. rewrite E. split; reflexivity. Qed.

(** X11.  A line cut in two is put together again: from an empty line
    buffer, a chunk [a] without a newline followed by the chunk
    [b ++ "\n" ++ rest] gives the same result (parse state, line buffer,
    line counter, return value) as the single chunk
    [a ++ b ++ "\n" ++ rest], when the line [a ++ b] fits the buffer. *)
Theorem two_chunk_split_is_transparent (st : dstate) (lb : linebuf) (num : Z)
  (a b rest : list ascii) :
  linebuf_ok K lb ->
  tmpl lb = 0 ->
  line_fits K 0 (a ++ b) = true ->
  feed_chunks K st lb num [a; b ++ NL :: rest] =
  feed_chunks K st lb num [(a ++ b) ++ NL :: rest].
Proof.
  intros Hok Hempty Hfit.
  pose proof Hfit as Hfit'. apply line_fits_spec in Hfit'.
  destruct Hfit' as [Hnl Hlt]. rewrite length_app in Hlt.
  unfold no_newline in Hnl. rewrite forallb_app in Hnl.
  apply andb_true_iff in Hnl. destruct Hnl as [Hnla Hnlb].
  destruct (linebuf_empty_parts lb Hempty) as [Hpre Hold].
  (* first chunk *)
  destruct (assembler_plain_chunk K st lb num a Hok Hnla) as [E1 Hok1];
    [rewrite Hempty; lia|].
  cbv zeta in E1, Hok1. rewrite Hpre, Hold in E1, Hok1.
  cbn [app] in E1, Hok1.
  cbn [feed_chunks]. rewrite E1. cbn [Z.eqb].
  (* second chunk, and the single chunk *)
  set (lb1 := mk_linebuf (a ++ skipn (List.length a) (tmp lb))
                (Z.of_nat (List.length a))) in *.
  assert (Hfit1 : line_fits K (tmpl lb1) b = true).
  { unfold line_fits, no_newline. rewrite Hnlb. cbn [tmpl lb1 andb].
    apply Z.ltb_lt. lia. }
  rewrite (assembler_line_chunk K st lb1 num b rest Hok1 Hfit1).
  assert (Hfit0 : line_fits K (tmpl lb) (a ++ b) = true)
    by (rewrite Hempty; exact Hfit).
  rewrite (assembler_line_chunk K st lb num (a ++ b) rest Hok Hfit0).
  assert (T1 : firstn (Z.to_nat (tmpl lb1)) (tmp lb1) = a).
  { cbn [tmp tmpl lb1]. rewrite Nat2Z.id.
    rewrite firstn_app, firstn_all, Nat.sub_diag. cbn [firstn].
    apply app_nil_r. }
  assert (S1 : skipn (Z.to_nat (tmpl lb1)) (tmp lb1) =
               skipn (List.length a) (tmp lb)).
  { cbn [tmp tmpl lb1]. rewrite Nat2Z.id.
    rewrite skipn_app, skipn_all, Nat.sub_diag. reflexivity. }
  rewrite T1, S1, Hpre, Hold.
  replace (skipn (S (List.length b)) (skipn (List.length a) (tmp lb)))
    with (skipn (S (List.length (a ++ b))) (tmp lb))
    by (rewrite skipn_skipn, length_app; f_equal; lia).
  cbn [app]. rewrite <- !app_assoc.
  reflexivity.
Qed.

(** X12.  A line cut in three is not: from an empty line buffer, two
    chunks [a] and [b] without a newline and then [l ++ "\n"] make one
    call of the line parser, on the first [length b] bytes of [a ++ b]
    followed by [l] (as a C string), not on [a ++ b ++ l]: the fill length
    after the second chunk is [length b], and the third chunk is written
    there. *)
Theorem three_chunk_split_overwrites (st : dstate) (lb : linebuf) (num : Z)
  (a b l : list ascii) :
  linebuf_ok K lb ->
  tmpl lb = 0 ->
  no_newline a = true -> no_newline b = true ->
  Z.of_nat (List.length a) + Z.of_nat (List.length b) < PAGE_SIZE K - 1 ->
  line_fits K (Z.of_nat (List.length b)) l = true ->
  exists lb',
    feed_chunks K st lb num [a; b; l ++ [NL]] =
    Some (0,
          dmfs_parse_line K st num
            (cstring (firstn (List.length b) (a ++ b) ++ l)),
          lb', num + 1).
Proof.
  intros Hok Hempty Hnla Hnlb Hab Hfit.
  destruct (linebuf_empty_parts lb Hempty) as [Hpre Hold].
  destruct (assembler_plain_chunk K st lb num a Hok Hnla) as [E1 Hok1];
    [rewrite Hempty; lia|].
  cbv zeta in E1, Hok1. rewrite Hpre, Hold in E1, Hok1.
  cbn [app] in E1, Hok1.
  set (lb1 := mk_linebuf (a ++ skipn (List.length a) (tmp lb))
                (Z.of_nat (List.length a))) in *.
  destruct (assembler_plain_chunk K st lb1 num b Hok1 Hnlb) as [E2 Hok2];
    [cbn [tmpl lb1]; lia|].
  cbv zeta in E2, Hok2.
  set (lb2 := mk_linebuf _ (Z.of_nat (List.length b))) in *.
  pose proof (assembler_line_chunk K st lb2 num l [] Hok2 Hfit) as E3.
  cbv zeta in E3.
  cbn [feed_chunks]. rewrite E1. cbn [Z.eqb]. rewrite E2. cbn [Z.eqb].
  rewrite E3. cbn [Z.eqb].
  assert (T1 : firstn (Z.to_nat (tmpl lb1)) (tmp lb1) = a).
  { cbn [tmp tmpl lb1]. rewrite Nat2Z.id.
    rewrite firstn_app, firstn_all, Nat.sub_diag. cbn [firstn].
    apply app_nil_r. }
  assert (T2 : firstn (Z.to_nat (tmpl lb2)) (tmp lb2) =
               firstn (List.length b) (a ++ b)).
  { cbn [tmp tmpl lb2]. rewrite T1, Nat2Z.id, app_assoc.
    rewrite (firstn_app (List.length b) (a ++ b)).
    replace (List.length b - List.length (a ++ b))%nat with 0%nat
      by (rewrite length_app; lia).
    cbn [firstn]. apply app_nil_r. }
  rewrite T2. eexists. reflexivity.
Qed.

End Chunks.

(** ** Pages without a newline, and holes *)

Lemma no_newline_firstn (n : nat) (l : list ascii) :
  no_newline l = true -> no_newline (firstn n l) = true.
Proof.
  unfold no_newline. intros H.
  rewrite <- (firstn_skipn n l), forallb_app in H.
  apply andb_true_iff in H. apply H.
Qed.

Lemma no_newline_zeros (n : nat) : no_newline (repeat NUL n) = true.
Proof. induction n as [|n IH]; [reflexivity|exact IH]. Qed.

Section Holes.

Context (K : dm_env).

(** A whole page without a newline, handed to the assembler in any state
    of the line buffer, is a line too long. *)
Lemma assembler_page_without_newline (st : dstate) (lb : linebuf) (num : Z)
  (data : list ascii) :
  linebuf_ok K lb -> tmpl lb < PAGE_SIZE K - 1 ->
  Z.of_nat (List.length data) = PAGE_SIZE K ->
  no_newline data = true ->
  exists lb',
    dmfs_parse_page K st data lb num =
    Some (-1, dmfs_add_error st num "Line too long", lb', num).
Proof.
  intros Hok Hlt Hlen Hnl.
  set (n := Z.to_nat (PAGE_SIZE K - 1 - tmpl lb)).
  destruct Hok as [Hpage Hpos].
  destruct (assembler_tail_fill K st lb num (firstn n data) (skipn n data))
    as (tmp' & E).
  - split; assumption.
  - now apply no_newline_firstn.
  - rewrite length_firstn. subst n. lia.
  - rewrite firstn_skipn in E. eauto.
Qed.

(** X13.  A page of [PAGE_CACHE_SIZE] bytes without a newline, in a pass
    that hands over the whole page, always ends the parse: whatever the
    line buffer holds, "Line too long" is recorded for the current line
    number, the table is destroyed and NULL is returned.  The page loop
    and the line buffer have the same size, so no such page can be part of
    a table that loads. *)
Theorem page_without_newline_is_fatal (ino : inode) (ei eo : Z)
  (s : loop_state) (pg : page) :
  i_mapping ino (l_index s) = Some pg ->
  uptodate pg = true ->
  l_index s <> ei ->
  Z.of_nat (List.length (kaddr pg)) = PAGE_CACHE_SIZE K ->
  no_newline (kaddr pg) = true ->
  linebuf_ok K (l_lb s) ->
  tmpl (l_lb s) < PAGE_SIZE K - 1 ->
  dmfs_parse_pages K ino ei eo s =
  Some (mk_result None
          (errors (l_st s) ++ [(l_num s, "Line too long"%string)])
          (trace (l_st s) ++
           [EvParsePage (l_index s) (PAGE_CACHE_SIZE K);
            EvPrintk "dmfs_parse: Parse error"; EvFreePage; EvPutTable])).
Proof.
  intros Hpg Hup Hne Hlen Hnl Hok Hlt.
  apply dmfs_parse_pages_exit. unfold dmfs_parse_body.
  rewrite Hpg, Hup. cbn [negb].
  destruct (Z.eqb_spec (l_index s) ei) as [E|_]; [contradiction|].
  rewrite <- Hlen, Nat2Z.id, firstn_all.
  destruct (assembler_page_without_newline
              (log (l_st s) [EvParsePage (l_index s)
                               (Z.of_nat (List.length (kaddr pg)))])
              (l_lb s) (l_num s) (kaddr pg) Hok Hlt Hlen Hnl) as (lb' & E).
  rewrite E. cbn [Z.eqb negb].
  unfold dmfs_parse_abort, dmfs_add_error, log. cbn [errors trace table].
  rewrite <- app_assoc. reflexivity.
Qed.

(** X14.  [dmfs_readpage] always returns 0 with the page up to date and
    unlocked; it leaves the bytes of a page that was up to date alone and
    makes any other page [PAGE_CACHE_SIZE] zero bytes; the dirty flag and
    the mappings are as before, and a second call changes nothing.  Such a
    zero page holds no newline, so it is one of the pages that
    [dmfs_parse] cannot get past. *)
Theorem dmfs_readpage_effect (p : vm_page) :
  0 <= PAGE_SHIFT K ->
  let '(rv, p') := dmfs_readpage K p in
  rv = 0 /\
  uptodate (vp_page p') = true /\ vp_locked p' = false /\
  vp_dirty p' = vp_dirty p /\ vp_kmaps p' = vp_kmaps p /\
  vp_index p' = vp_index p /\
  (uptodate (vp_page p) = true -> vp_page p' = vp_page p) /\
  (uptodate (vp_page p) = false ->
   kaddr (vp_page p') = zero_page K /\
   Z.of_nat (List.length (kaddr (vp_page p'))) = PAGE_CACHE_SIZE K /\
   no_newline (kaddr (vp_page p')) = true) /\
  dmfs_readpage K p' = (0, p').
Proof.
  intros Hshift. unfold dmfs_readpage.
  destruct p as [[up data] dirty locked kmaps index]. cbn.
  destruct up; cbn; repeat split; try discriminate; auto.
  - unfold zero_page. rewrite repeat_length, Z2Nat.id; [reflexivity|].
    unfold PAGE_CACHE_SIZE, PAGE_SIZE. apply Z.pow_nonneg. lia.
  - apply no_newline_zeros.
Qed.

End Holes.

(** ** What every parse keeps: line numbers, the page and the table *)

Lemma parsed_lines_app (a b : list event) :
  parsed_lines (a ++ b) = parsed_lines a ++ parsed_lines b.
Proof.
  induction a as [|e a IH]; [reflexivity|].
  destruct e; simpl; rewrite ?IH; reflexivity.
Qed.

Lemma zrange_snoc (from : Z) (n : nat) :
  zrange from n ++ [from + Z.of_nat n] = zrange from (S n).
Proof.
  revert from. induction n as [|n IH]; intros from.
  - simpl. now rewrite Z.add_0_r.
  - change (zrange from (S (S n))) with (from :: zrange (from + 1) (S n)).
    change (zrange from (S n)) with (from :: zrange (from + 1) n).
    rewrite <- (IH (from + 1)). cbn [app]. do 3 f_equal. lia.
Qed.

Section ParseInvariants.

Context (K : dm_env).

Lemma parsed_lines_of_line (st : dstate) (num : Z) (line : list ascii) :
  parsed_lines (trace (dmfs_parse_line K st num line)) =
  parsed_lines (trace st) ++ [(num, line)].
Proof.
  pose proof (dmfs_parse_line_frame K st num line) as E. cbv zeta in E.
  rewrite E. cbn [trace]. rewrite parsed_lines_app. f_equal.
  unfold dmfs_parse_line, dmfs_add_error, log, set_table; simpl.
  break_line; reflexivity.
Qed.

Lemma lifecycle_of_line (st : dstate) (num : Z) (line : list ascii) :
  filter is_lifecycle (trace (dmfs_parse_line K st num line)) =
  filter is_lifecycle (trace st).
Proof.
  pose proof (dmfs_parse_line_frame K st num line) as E. cbv zeta in E.
  rewrite E. cbn [trace]. rewrite filter_app.
  rewrite <- (app_nil_r (filter is_lifecycle (trace st))) at 2. f_equal.
  unfold dmfs_parse_line, dmfs_add_error, log, set_table; simpl.
  break_line; reflexivity.
Qed.

(** A property of the trace and the line counter that every call of the
    line parser keeps is kept by the assembler. *)
Lemma dmfs_parse_page_keeps (J : list event -> Z -> Prop) :
  (forall st num line,
     J (trace st) num ->
     J (trace (dmfs_parse_line K st num line)) (num + 1)) ->
  forall st buf lb num rv st' lb' num',
    J (trace st) num ->
    dmfs_parse_page K st buf lb num = Some (rv, st', lb', num') ->
    J (trace st') num'.
Proof.
  intros Hline st buf. unfold dmfs_parse_page.
  generalize (S (List.length buf)) as fuel. intros fuel. revert st buf.
  induction fuel as [|fuel IH]; intros st buf lb num rv st' lb' num' HJ H;
    [discriminate|].
  cbn [dmfs_parse_page_loop] in H.
  destruct (dmfs_copy (tmp lb) (tmpl lb) (PAGE_SIZE K - tmpl lb - 1) buf)
    as [[copied flag] tmp'].
  destruct (tmpl lb + copied =? PAGE_SIZE K - 1).
  - injection H as <- <- <- <-. exact HJ.
  - destruct flag;
      (destruct (0 <? Z.of_nat (List.length (skipn (Z.to_nat copied) buf)));
       [eapply IH; [|exact H]; auto
       |injection H as <- <- <- <-; auto]).
Qed.

(** ... and by the page loop, up to the state in which it ends. *)
Lemma dmfs_parse_pages_keeps (J : list event -> Z -> Prop) :
  (forall st num line,
     J (trace st) num ->
     J (trace (dmfs_parse_line K st num line)) (num + 1)) ->
  (forall tr num index len, J tr num -> J (tr ++ [EvParsePage index len]) num) ->
  forall m ino ei eo s r,
    J (trace (l_st s)) (l_num s) ->
    dmfs_parse_pages_fuel K m ino ei eo s = Some r ->
    exists st' num',
      J (trace st') num' /\
      (r = dmfs_parse_finish K st' \/ exists msg, r = dmfs_parse_abort st' msg).
Proof.
  intros Hline Hpage m ino ei eo. unfold dmfs_parse_pages_fuel.
  induction m as [|m IH]; intros s r HJ H; [discriminate|].
  cbn [iterate_fuel] in H. unfold dmfs_parse_body in H.
  destruct (i_mapping ino (l_index s)) as [pg|].
  - destruct (negb (uptodate pg)).
    + injection H as <-. eauto 6.
    + destruct (dmfs_parse_page K _ _ _ _) as [[[[rv st'] lb'] num']|] eqn:E;
        [|discriminate].
      apply (dmfs_parse_page_keeps J Hline) in E;
        [|cbn [log trace]; apply Hpage; exact HJ].
      destruct (negb (rv =? 0)); [injection H as <-; eauto 6|].
      destruct (to_ulong K (l_index s + 1) =? ei);
        [injection H as <-; eauto 6|].
      eapply IH; [|exact H]. exact E.
  - destruct (to_ulong K (l_index s + 1) =? ei);
      [injection H as <-; eauto 6|].
    eapply IH; [|exact H]. exact HJ.
Qed.

(** X15.  In every parse the lines handed to the line parser are numbered
    0, 1, 2, ... without a gap or a repeat, in the order of the text, across
    chunks and skipped pages: an error recorded for line [n] is about the
    [n + 1]-th newline-terminated line read. *)
Theorem line_numbers_are_consecutive (ino : inode) :
  match dmfs_parse K ino with
  | Some r =>
      exists n : nat, map fst (parsed_lines (r_trace r)) = zrange 0 n
  | None => False
  end.
Proof.
  destruct (dmfs_parse_total K ino) as [r E]. rewrite E.
  unfold dmfs_parse in E.
  destruct (i_size ino =? 0); [injection E as <-; exists 0%nat; reflexivity|].
  destruct (get_free_page K);
    [|injection E as <-; exists 0%nat; reflexivity].
  destruct (dm_create_table K);
    [|injection E as <-; exists 0%nat; reflexivity].
  rewrite dmfs_parse_pages_as_fuel in E.
  apply (dmfs_parse_pages_keeps
           (fun tr num =>
              exists n : nat,
                num = Z.of_nat n /\ map fst (parsed_lines tr) = zrange 0 n))
    in E.
  - destruct E as (st' & num' & (n & _ & Hn) & [Hr|[msg Hr]]); subst r;
      exists n.
    + unfold dmfs_parse_finish.
      destruct (dm_table_complete K (table st')) as [rv t'].
      destruct (rv =? 0); cbn [r_trace]; rewrite parsed_lines_app;
        cbn [parsed_lines]; now rewrite app_nil_r.
    + cbn [dmfs_parse_abort r_trace]. rewrite parsed_lines_app.
      cbn [parsed_lines]. now rewrite app_nil_r.
  - intros st num line (n & Hnum & Hn). exists (S n). split; [lia|].
    rewrite parsed_lines_of_line, map_app, Hn. cbn [map fst].
    rewrite Hnum. apply (zrange_snoc 0 n).
  - intros tr num index len (n & Hnum & Hn). exists n. split; [exact Hnum|].
    rewrite parsed_lines_app. cbn [parsed_lines]. now rewrite app_nil_r.
  - exists 0%nat. split; reflexivity.
Qed.

(** The calls on the scratch page and on the table, on every way through
    [dmfs_parse]. *)
Lemma dmfs_parse_lifecycle (ino : inode) :
  match dmfs_parse K ino with
  | Some r =>
      let calls := filter is_lifecycle (r_trace r) in
      (calls = [] /\ retval r = None) \/
      (calls = [EvGetFreePage false] /\ retval r = None) \/
      (calls = [EvGetFreePage true; EvCreateTable false; EvFreePage] /\
       retval r = None) \/
      (calls = [EvGetFreePage true; EvCreateTable true; EvFreePage;
                EvPutTable] /\ retval r = None) \/
      (exists rv,
         rv <> 0 /\
         calls = [EvGetFreePage true; EvCreateTable true; EvFreePage;
                  EvTableComplete rv; EvPutTable] /\ retval r = None) \/
      (exists t,
         calls = [EvGetFreePage true; EvCreateTable true; EvFreePage;
                  EvTableComplete 0] /\ retval r = Some t)
  | None => False
  end.
Proof.
  destruct (dmfs_parse_total K ino) as [r E]. rewrite E.
  unfold dmfs_parse in E.
  destruct (i_size ino =? 0); [injection E as <-; left; split; reflexivity|].
  destruct (get_free_page K);
    [|injection E as <-; right; left; split; reflexivity].
  destruct (dm_create_table K);
    [|injection E as <-; right; right; left; split; reflexivity].
  rewrite dmfs_parse_pages_as_fuel in E.
  apply (dmfs_parse_pages_keeps
           (fun tr _ =>
              filter is_lifecycle tr =
              [EvGetFreePage true; EvCreateTable true])) in E.
  - destruct E as (st' & num' & HJ & [Hr|[msg Hr]]); subst r; cbv zeta.
    + unfold dmfs_parse_finish.
      destruct (dm_table_complete K (table st')) as [rv t'].
      destruct (Z.eqb_spec rv 0) as [Hrv|Hrv]; cbn [r_trace retval];
        rewrite filter_app, HJ; cbn.
      * subst rv. do 5 right. eauto.
      * do 4 right. left. eauto.
    + cbn [dmfs_parse_abort r_trace retval]. rewrite filter_app, HJ. cbn.
      do 3 right. left. split; reflexivity.
  - intros st num line HJ. now rewrite lifecycle_of_line.
  - intros tr num index len HJ. rewrite filter_app, HJ. reflexivity.
  - reflexivity.
Qed.

(** X16.  The scratch page and the table on every way through
    [dmfs_parse]: the scratch page is freed exactly once if it was
    allocated and never otherwise; a table that was created is either
    returned, after a [dm_table_complete] that gave 0, or put exactly
    once, and never both.  Nothing else in the parse (no line, no chunk)
    frees the page or puts the table.  This is about [__get_free_page],
    [free_page], [dm_create_table], [dm_table_complete] and
    [dm_put_table] only: the references on page-cache pages are not paired
    on every way, see [page_reference_kept_on_abort]. *)
Theorem dmfs_parse_pairs_its_calls (ino : inode) :
  match dmfs_parse K ino with
  | Some r =>
      let calls := filter is_lifecycle (r_trace r) in
      (calls = [] /\ retval r = None) \/
      (calls = [EvGetFreePage false] /\ retval r = None) \/
      (calls = [EvGetFreePage true; EvCreateTable false; EvFreePage] /\
       retval r = None) \/
      (calls = [EvGetFreePage true; EvCreateTable true; EvFreePage;
                EvPutTable] /\ retval r = None) \/
      (exists rv,
         rv <> 0 /\
         calls = [EvGetFreePage true; EvCreateTable true; EvFreePage;
                  EvTableComplete rv; EvPutTable] /\ retval r = None) \/
      (exists t,
         calls = [EvGetFreePage true; EvCreateTable true; EvFreePage;
                  EvTableComplete 0] /\ retval r = Some t)
  | None => False
  end.
Proof. apply dmfs_parse_lifecycle. Qed.

End ParseInvariants.

(** ** The references on page-cache pages *)

Lemma refs_balanced_app (n : nat) :
  forall a b,
    (List.length a <= n)%nat ->
    refs_balanced a = true ->
    refs_balanced (a ++ b) = refs_balanced b.
Proof.
  induction n as [|n IH]; intros a b Hn Ha.
  - destruct a; [reflexivity|cbn [List.length] in Hn; lia].
  - destruct a as [|[i|[j|]] a]; [reflexivity| |discriminate Ha|].
    + destruct a as [|[k|[j|]] a]; try discriminate Ha.
      cbn [refs_balanced] in Ha. apply andb_true_iff in Ha.
      destruct Ha as [Hij Ha].
      cbn [app refs_balanced]. rewrite Hij, IH;
        [reflexivity|cbn [List.length] in Hn; lia|exact Ha].
    + cbn [app refs_balanced] in *. apply IH;
        [cbn [List.length] in Hn; lia|exact Ha].
Qed.

Section PageReferences.

Context (K : dm_env).

Lemma printk_of_line (st : dstate) (num : Z) (line : list ascii) :
  existsb is_printk (trace (dmfs_parse_line K st num line)) =
  existsb is_printk (trace st).
Proof.
  pose proof (dmfs_parse_line_frame K st num line) as E. cbv zeta in E.
  rewrite E. cbn [trace]. rewrite existsb_app.
  rewrite <- (orb_false_r (existsb is_printk (trace st))) at 2. f_equal.
  unfold dmfs_parse_line, dmfs_add_error, log, set_table; simpl.
  break_line; reflexivity.
Qed.

Lemma printk_of_finish (st : dstate) :
  existsb is_printk (r_trace (dmfs_parse_finish K st)) =
  existsb is_printk (trace st).
Proof.
  unfold dmfs_parse_finish.
  destruct (dm_table_complete K (table st)) as [rv t'].
  destruct (rv =? 0); cbn [r_trace]; rewrite existsb_app; cbn;
    apply orb_false_r.
Qed.

Lemma printk_of_abort (st : dstate) (msg : string) :
  existsb is_printk (r_trace (dmfs_parse_abort st msg)) = true.
Proof.
  cbn [dmfs_parse_abort r_trace]. rewrite existsb_app. cbn.
  apply orb_true_r.
Qed.

(** Leaving out the reference calls gives the page loop. *)
Lemma dmfs_parse_body_pc_loop (ino : inode) (ei eo : Z) (m : nat) :
  forall s calls,
    option_map fst
      (iterate_fuel m (dmfs_parse_body_pc K ino ei eo) (fun _ => None)
         (s, calls)) =
    dmfs_parse_pages_fuel K m ino ei eo s.
Proof.
  unfold dmfs_parse_pages_fuel.
  induction m as [|m IH]; intros s calls; [reflexivity|].
  cbn [iterate_fuel dmfs_parse_body_pc].
  destruct (dmfs_parse_body K ino ei eo s) as [[s'|r]|];
    [apply IH|reflexivity|reflexivity].
Qed.

Lemma dmfs_parse_body_pc_refs (ino : inode) (ei eo : Z) (m : nat) :
  forall s calls r calls',
    existsb is_printk (trace (l_st s)) = false ->
    refs_balanced calls = true ->
    iterate_fuel m (dmfs_parse_body_pc K ino ei eo) (fun _ => None)
      (s, calls) = Some (r, calls') ->
    if existsb is_printk (r_trace r)
    then exists done i,
           calls' = done ++ [PageCacheGet i] /\
           refs_balanced done = true /\
           i_mapping ino i <> None
    else refs_balanced calls' = true.
Proof.
  induction m as [|m IH]; intros s calls r calls' Hpk Hbal H;
    [discriminate|].
  cbn [iterate_fuel dmfs_parse_body_pc] in H.
  unfold dmfs_parse_body, dmfs_parse_body_refs in H.
  destruct (i_mapping ino (l_index s)) as [pg|] eqn:Hpg.
  - destruct (uptodate pg); cbn [negb] in H.
    + destruct (dmfs_parse_page K _ _ _ _) as [[[[rv st'] lb'] num']|] eqn:E;
        [|discriminate].
      apply (dmfs_parse_page_keeps K
               (fun tr _ => existsb is_printk tr = false)) in E;
        [|intros st0 num0 line0 H0; now rewrite printk_of_line
         |cbn [log trace]; rewrite existsb_app, Hpk; reflexivity].
      destruct (rv =? 0); cbn [negb] in H.
      * assert (Hbal' : refs_balanced
                          (calls ++ [PageCacheGet (l_index s);
                                     PageCacheRelease (Some (l_index s))])
                        = true).
        { rewrite (refs_balanced_app (List.length calls)) by auto.
          cbn. now rewrite Z.eqb_refl. }
        destruct (to_ulong K (l_index s + 1) =? ei).
        -- injection H as <- <-. rewrite printk_of_finish, E. exact Hbal'.
        -- eapply IH; [| |exact H]; assumption.
      * injection H as <- <-. rewrite printk_of_abort.
        exists calls, (l_index s). rewrite Hpg.
        split; [reflexivity|]. split; [exact Hbal|discriminate].
    + injection H as <- <-. rewrite printk_of_abort.
      exists calls, (l_index s). rewrite Hpg.
      split; [reflexivity|]. split; [exact Hbal|discriminate].
  - assert (Hbal' : refs_balanced (calls ++ [PageCacheRelease None]) = true).
    { rewrite (refs_balanced_app (List.length calls)) by auto.
      reflexivity. }
    destruct (to_ulong K (l_index s + 1) =? ei).
    + injection H as <- <-. rewrite printk_of_finish, Hpk. exact Hbal'.
    + eapply IH; [| |exact H]; assumption.
Qed.

(** X23.  The references that [dmfs_parse] takes on page-cache pages.
    Every pass that finds its page takes a reference with
    [page_cache_get]; a pass that goes through to the end of the loop body
    gives it back with [page_cache_release] before the next pass, and a
    pass that finds no page calls [page_cache_release] with NULL.  The two
    ways out that print a message ([goto broken] for a page that is not up
    to date, [goto parse_error] for a line that is too long) leave the
    loop before the release: a parse that ends there has taken a
    reference on the page it stopped at and not given it back, while a
    parse that ends in any other way holds no reference.  The result of
    the parse is that of [dmfs_parse]. *)
Theorem page_reference_kept_on_abort (ino : inode) :
  match dmfs_parse_pc K ino with
  | Some (r, calls) =>
      dmfs_parse K ino = Some r /\
      if existsb is_printk (r_trace r)
      then exists done i,
             calls = done ++ [PageCacheGet i] /\
             refs_balanced done = true /\
             i_mapping ino i <> None
      else refs_balanced calls = true
  | None => False
  end.
Proof.
  destruct (dmfs_parse_total K ino) as [r0 E0]. rewrite E0.
  unfold dmfs_parse in E0. unfold dmfs_parse_pc.
  destruct (i_size ino =? 0);
    [injection E0 as <-; split; reflexivity|].
  destruct (get_free_page K) as [scratch|];
    [|injection E0 as <-; split; reflexivity].
  destruct (dm_create_table K) as [t|];
    [|injection E0 as <-; split; reflexivity].
  cbv zeta. rewrite dmfs_parse_pages_as_fuel in E0.
  rewrite iterate_pow2_fuel.
  pose proof (dmfs_parse_body_pc_loop ino
                (to_ulong K (Z.shiftr (i_size ino) (PAGE_SHIFT K)))
                (Z.land (i_size ino) (PAGE_CACHE_SIZE K - 1))
                (2 ^ BITS_PER_LONG K)
                (mk_loop 0
                   (mk_dstate t [] [EvGetFreePage true; EvCreateTable true])
                   (mk_linebuf scratch 0) 0) []) as Hsim.
  rewrite E0 in Hsim.
  destruct (iterate_fuel _ _ _ _) as [[r calls]|] eqn:E; [|discriminate Hsim].
  injection Hsim as ->. split; [reflexivity|].
  eapply dmfs_parse_body_pc_refs; [| |exact E]; reflexivity.
Qed.

End PageReferences.

(** A page that is not up to date, and a line that is too long: the parse
    stops with the reference on page 0 taken and not given back.  A parse
    that goes through holds none. *)
Example page_reference_examples :
  option_map snd (dmfs_parse_pc ex_env ex_ino_stale) = Some [PageCacheGet 0]
  /\
  option_map snd (dmfs_parse_pc ex_env ex_ino_long) = Some [PageCacheGet 0]
  /\
  option_map snd (dmfs_parse_pc ex_env ex_ino_short_last) =
    Some [PageCacheGet 0; PageCacheRelease (Some 0)].
Proof. vm_compute. repeat split. Qed.

(** ** How long the page loop runs *)

Section Passes.

Context (K : dm_env).

(** X17.  [dmfs_parse] returns for every inode: [index] takes each value of
    an [unsigned long] at most once before it meets [end_index], so the
    loop ends within [2 ^ BITS_PER_LONG] passes. *)
Theorem dmfs_parse_returns (ino : inode) :
  exists r,
    dmfs_parse K ino = Some r /\
    (i_size ino <> 0 -> get_free_page K <> None ->
     dm_create_table K <> None ->
     exists m, (m <= 2 ^ BITS_PER_LONG K)%nat /\
       forall scratch t,
         get_free_page K = Some scratch -> dm_create_table K = Some t ->
         dmfs_parse_pages_fuel K m ino
           (to_ulong K (Z.shiftr (i_size ino) (PAGE_SHIFT K)))
           (Z.land (i_size ino) (PAGE_CACHE_SIZE K - 1))
           (mk_loop 0
              (mk_dstate t [] [EvGetFreePage true; EvCreateTable true])
              (mk_linebuf scratch 0) 0) = Some r).
Proof.
  destruct (dmfs_parse_total K ino) as [r E]. exists r. split; [exact E|].
  intros Hsize Hpage Htable. exists (2 ^ BITS_PER_LONG K)%nat.
  split; [lia|]. intros scratch t Hs Ht.
  unfold dmfs_parse in E. rewrite Hs, Ht in E.
  destruct (Z.eqb_spec (i_size ino) 0) as [E0|_]; [contradiction|].
  now rewrite dmfs_parse_pages_as_fuel in E.
Qed.

Lemma absent_pages_need_fuel (ino : inode) (eo : Z) :
  forall m s,
    0 < l_index s < 2 ^ Z.of_nat (BITS_PER_LONG K) ->
    (forall i, l_index s <= i < 2 ^ Z.of_nat (BITS_PER_LONG K) ->
               i_mapping ino i = None) ->
    Z.of_nat m < 2 ^ Z.of_nat (BITS_PER_LONG K) - l_index s ->
    dmfs_parse_pages_fuel K m ino 0 eo s = None.
Proof.
  unfold dmfs_parse_pages_fuel.
  induction m as [|m IH]; intros s Hs Habs Hm; [reflexivity|].
  cbn [iterate_fuel]. unfold dmfs_parse_body.
  rewrite Habs by lia. rewrite to_ulong_small by lia.
  destruct (Z.eqb_spec (l_index s + 1) 0) as [E|_]; [lia|].
  apply IH; cbn [l_index]; try lia.
  intros i Hi. apply Habs. lia.
Qed.

(** X18.  For a file shorter than a page ([end_index] is 0) the loop does
    not stop after its page: from [index] on, with no further page in the
    page cache, it makes exactly one pass for each remaining value of the
    [unsigned long] index, [2 ^ BITS_PER_LONG - index] passes, before
    [index] wraps to 0 and the table is completed. *)
Theorem short_file_runs_until_wrap (ino : inode) (eo : Z) (s : loop_state)
  (m : nat) :
  0 < l_index s < 2 ^ Z.of_nat (BITS_PER_LONG K) ->
  (forall i, l_index s <= i < 2 ^ Z.of_nat (BITS_PER_LONG K) ->
             i_mapping ino i = None) ->
  dmfs_parse_pages_fuel K m ino 0 eo s =
  if Z.of_nat m <? 2 ^ Z.of_nat (BITS_PER_LONG K) - l_index s
  then None
  else Some (dmfs_parse_finish K (l_st s)).
Proof.
  intros Hs Habs.
  destruct (Z.ltb_spec (Z.of_nat m)
              (2 ^ Z.of_nat (BITS_PER_LONG K) - l_index s)).
  - now apply absent_pages_need_fuel.
  - now apply absent_pages_until_wrap.
Qed.

End Passes.

(** ** A short table file, from text to table *)

Section ShortFile.

Context (K : dm_env).

Lemma parsed_lines_of_lines (lines : list (list ascii)) :
  forall st num,
    parsed_lines (trace (parse_lines K st num lines)) =
    parsed_lines (trace st) ++
    combine (zrange num (List.length lines)) (map cstring lines).
Proof.
  induction lines as [|l ls IH]; intros st num; cbn [parse_lines].
  - cbn. now rewrite app_nil_r.
  - rewrite IH, parsed_lines_of_line, <- app_assoc. reflexivity.
Qed.

Lemma parsed_pages_app (a b : list event) :
  parsed_pages (a ++ b) = parsed_pages a ++ parsed_pages b.
Proof.
  induction a as [|e a IH]; [reflexivity|].
  destruct e; simpl; rewrite ?IH; reflexivity.
Qed.

Lemma parsed_pages_of_lines (lines : list (list ascii)) :
  forall st num,
    parsed_pages (trace (parse_lines K st num lines)) =
    parsed_pages (trace st).
Proof.
  induction lines as [|l ls IH]; intros st num; cbn [parse_lines];
    [reflexivity|].
  rewrite IH.
  pose proof (dmfs_parse_line_frame K st num (cstring l)) as E.
  cbv zeta in E. rewrite E. cbn [trace]. rewrite parsed_pages_app.
  rewrite <- (app_nil_r (parsed_pages (trace st))) at 2. f_equal.
  unfold dmfs_parse_line, dmfs_add_error, log, set_table; simpl.
  break_line; reflexivity.
Qed.

(** X19.  A table file shorter than a page, alone in the page cache, whose
    lines fit the line buffer: [dmfs_parse] hands every newline-terminated
    line to the line parser exactly once, in order, numbered from 0 and cut
    at its first NUL; the text behind the last newline is dropped; the
    errors are those of the lines; and the table goes to
    [dm_table_complete], whose result alone decides what is returned: an
    error recorded for a line does not by itself make [dmfs_parse] fail. *)
Theorem short_file_is_parsed_line_by_line (ino : inode) (pg : page)
  (scratch : list ascii) (t : dm_table) (lines : list (list ascii))
  (tail : list ascii) :
  0 <= PAGE_SHIFT K ->
  0 < i_size ino < PAGE_SIZE K ->
  get_free_page K = Some scratch ->
  Z.of_nat (List.length scratch) = PAGE_SIZE K ->
  dm_create_table K = Some t ->
  i_mapping ino 0 = Some pg ->
  uptodate pg = true ->
  (forall i, 0 < i -> i_mapping ino i = None) ->
  firstn (Z.to_nat (i_size ino)) (kaddr pg) = lines_bytes lines ++ tail ->
  lines_fit K 0 lines = true ->
  no_newline tail = true ->
  Z.of_nat (List.length tail) < PAGE_SIZE K - 1 ->
  let st' :=
    parse_lines K
      (mk_dstate t []
         [EvGetFreePage true; EvCreateTable true; EvParsePage 0 (i_size ino)])
      0 lines in
  let rv := fst (dm_table_complete K (table st')) in
  exists r,
    dmfs_parse K ino = Some r /\
    parsed_lines (r_trace r) =
      combine (zrange 0 (List.length lines)) (map cstring lines) /\
    parsed_pages (r_trace r) = [(0, i_size ino)] /\
    r_errors r = errors st' /\
    retval r =
      (if rv =? 0 then Some (snd (dm_table_complete K (table st')))
       else None).
Proof.
  intros Hshift Hsize Hpage Hscratch Htable Hpg Hup Habs Hchunk Hfit Hnl
    Htail st' rv.
  exists (dmfs_parse_finish K st').
  split; [now apply (small_file_parse K ino pg scratch t lines tail)|].
  destruct (dmfs_parse_finish_calls K st') as (Hret & Herr & Htr).
  cbv zeta in Hret, Herr, Htr. fold rv in Hret, Htr.
  assert (Hpl : parsed_lines (trace st') =
                combine (zrange 0 (List.length lines)) (map cstring lines)).
  { subst st'. rewrite parsed_lines_of_lines. reflexivity. }
  assert (Hpp : parsed_pages (trace st') = [(0, i_size ino)]).
  { subst st'. rewrite parsed_pages_of_lines. reflexivity. }
  split; [|split; [|split; [exact Herr|exact Hret]]].
  - rewrite Htr, parsed_lines_app, Hpl.
    destruct (rv =? 0); cbn; now rewrite app_nil_r.
  - rewrite Htr, parsed_pages_app, Hpp. destruct (rv =? 0); reflexivity.
Qed.

End ShortFile.

(** ** Writing the table file and closing it *)

Section WriteAndClose.

Context (K : dm_env).

(** X20.  [dmfs_prepare_write] followed by [dmfs_commit_write] on the same
    page: both return 0, every [kmap] is undone, the page ends up to date
    and dirty, with its bytes untouched if it was up to date and zeroed if
    not, and [i_size] becomes the larger of its old value and the end of
    the write, [(index << PAGE_CACHE_SHIFT) + to]: the file never gets
    shorter, so writing a shorter table leaves the end of the old one in
    place. *)
Theorem prepare_then_commit_write (p : vm_page) (size offset to : Z) :
  let '(rv1, p1) := dmfs_prepare_write K p offset to in
  let '(rv2, p2, size') := dmfs_commit_write K p1 size offset to in
  let pos := to_loff (Z.shiftl (vp_index p) (PAGE_SHIFT K) + to) in
  rv1 = 0 /\ rv2 = 0 /\
  vp_kmaps p2 = vp_kmaps p /\
  vp_index p2 = vp_index p /\ vp_locked p2 = vp_locked p /\
  vp_dirty p2 = true /\ uptodate (vp_page p2) = true /\
  kaddr (vp_page p2) =
    (if uptodate (vp_page p) then kaddr (vp_page p) else zero_page K) /\
  size' = Z.max size pos.
Proof.
  unfold dmfs_prepare_write, dmfs_commit_write.
  destruct p as [[up data] dirty locked kmaps index]. cbn.
  repeat split; try lia.
  - destruct up; reflexivity.
  - destruct up; reflexivity.
  - destruct (Z.ltb_spec size
                (to_loff (Z.shiftl index (PAGE_SHIFT K) + to))); lia.
Qed.

(** X21.  [dmfs_release] always returns 0.  Closing a handle whose mode has
    none of the [S_IWUGO] bits does nothing: no semaphore, no parse, the
    active table stays.  Otherwise the calls are, in this order, [down],
    one [dmfs_parse], the [dm_put_table] of the active table if the parse
    returned a table and there was an active one, and [up]; the active
    table becomes the table that the parse returned, or stays when the
    parse returned NULL.  A table that the parse returns has not been put
    by the parse, and a table that the parse created and does not return
    has been put by the parse itself; so after the call every table is
    either the active one or has been put.  A parse of an empty file
    returns NULL, so closing after writing nothing keeps the active
    table. *)
Theorem dmfs_release_replaces_on_success (f_mode : Z) (ino : inode)
  (active : option dm_table) :
  match dmfs_release K f_mode ino active with
  | Some res =>
      rel_retval res = 0 /\
      (active <> None -> rel_table res <> None) /\
      if Z.land f_mode S_IWUGO =? 0
      then rel_events res = [] /\ rel_table res = active
      else
        exists r,
          dmfs_parse K ino = Some r /\
          rel_events res =
            [RelDown; RelParse r] ++
            match retval r, active with
            | Some _, Some old => [RelPutTable old]
            | _, _ => []
            end ++ [RelUp] /\
          rel_table res =
            match retval r with Some t => Some t | None => active end /\
          (retval r <> None -> ~ In EvPutTable (r_trace r)) /\
          (retval r = None -> In (EvCreateTable true) (r_trace r) ->
           In EvPutTable (r_trace r)) /\
          (i_size ino = 0 -> rel_table res = active)
  | None => False
  end.
Proof.
  unfold dmfs_release.
  destruct (Z.land f_mode S_IWUGO =? 0); [repeat split; auto|].
  pose proof (dmfs_parse_lifecycle K ino) as Hlife.
  assert (Hempty : i_size ino = 0 ->
                   dmfs_parse K ino = Some (mk_result None [] []))
    by (intros H0; unfold dmfs_parse; rewrite H0; reflexivity).
  destruct (dmfs_parse_total K ino) as [r E]. rewrite E in *.
  cbv zeta in Hlife.
  assert (Hcalls : forall e, is_lifecycle e = true ->
            (In e (r_trace r) <->
             In e (filter is_lifecycle (r_trace r)))).
  { intros e He. rewrite filter_In. tauto. }
  assert (Hput : (retval r <> None -> ~ In EvPutTable (r_trace r)) /\
                 (retval r = None -> In (EvCreateTable true) (r_trace r) ->
                  In EvPutTable (r_trace r))).
  { rewrite (Hcalls EvPutTable eq_refl), (Hcalls (EvCreateTable true) eq_refl).
    destruct Hlife as [[-> Hr]|[[-> Hr]|[[-> Hr]|[[-> Hr]|
                       [(rv & Hrv & -> & Hr)|(t & -> & Hr)]]]]];
      rewrite Hr; cbn; intuition congruence. }
  destruct Hput as [Hput1 Hput2].
  assert (Hsize : i_size ino = 0 -> retval r = None).
  { intros H0. specialize (Hempty H0). injection Hempty as ->. reflexivity. }
  destruct (retval r) as [t|] eqn:Hret; cbn.
  - split; [reflexivity|]. split; [discriminate|].
    exists r. rewrite Hret. split; [reflexivity|].
    split; [destruct active; reflexivity|].
    split; [reflexivity|]. split; [exact Hput1|]. split; [exact Hput2|].
    intros H0. specialize (Hsize H0). discriminate Hsize.
  - split; [reflexivity|]. split; [auto|].
    exists r. rewrite Hret. repeat split; auto.
Qed.

End WriteAndClose.

(** ** Instances of the further properties *)

Lemma blank_line_witness :
  all_delims [SPACE; TAB; SPACE] = true /\
  errors (dmfs_parse_line ex_env ex_st0 7 [SPACE; TAB; SPACE]) =
    [(7, "No start argument"%string)].
Proof.
  assert (H : all_delims [SPACE; TAB; SPACE] = true) by reflexivity.
  split; [exact H|].
  destruct (blank_line_is_an_error ex_env ex_st0 7 _ H) as (He & _).
  exact He.
Defined.

Lemma one_token_line_witness :
  all_delims [SPACE] = true /\ no_delim (str "100") = true /\
  errors (dmfs_parse_line ex_env ex_st0 0 ([SPACE] ++ str "100" ++ [TAB])) =
    [(0, "No size argument"%string)].
Proof.
  assert (H1 : all_delims [SPACE] = true) by reflexivity.
  assert (H2 : str "100" <> []) by discriminate.
  assert (H3 : no_delim (str "100") = true) by reflexivity.
  assert (H4 : all_delims [TAB] = true) by reflexivity.
  split; [exact H1|]. split; [exact H3|].
  destruct (one_token_line_has_no_size ex_env ex_st0 0 _ _ _ H1 H2 H3 H4)
    as (He & _).
  exact He.
Defined.

Lemma two_token_line_witness :
  to_offset ex_env (simple_strtoul ex_env (str "0")) =
    start_of_next_range ex_env (table ex_st0) /\
  errors (dmfs_parse_line ex_env ex_st0 0
            ([] ++ str "0" ++ SPACE :: [] ++ str "100" ++ [])) =
    [(0, "No target type"%string)].
Proof.
  assert (Hs : to_offset ex_env (simple_strtoul ex_env (str "0")) =
               start_of_next_range ex_env (table ex_st0)) by reflexivity.
  split; [exact Hs|].
  assert (Hb : all_delims [] = true) by reflexivity.
  assert (H1 : str "0" <> []) by discriminate.
  assert (H2 : no_delim (str "0") = true) by reflexivity.
  assert (Hd : is_delim SPACE = true) by reflexivity.
  assert (H3 : str "100" <> []) by discriminate.
  assert (H4 : no_delim (str "100") = true) by reflexivity.
  destruct (two_token_line_has_no_target_type ex_env ex_st0 0
              [] (str "0") [] (str "100") [] SPACE
              Hb H1 H2 Hd Hb H3 H4 Hb Hs) as (He & _).
  exact He.
Defined.

Lemma constructor_failure_witness :
  In (EvCtr (str "faulty") 0 100 None (-22))
    (calls_since ex_st0 (dmfs_parse_line ex_env ex_st0 0 (str "0 100 faulty")))
  /\ -22 <> 0
  /\ table (dmfs_parse_line ex_env ex_st0 0 (str "0 100 faulty")) =
     ex_empty_table.
Proof.
  assert (Hin : In (EvCtr (str "faulty") 0 100 None (-22))
                  (calls_since ex_st0
                     (dmfs_parse_line ex_env ex_st0 0 (str "0 100 faulty"))))
    by (vm_compute; auto).
  assert (Hrv : -22 <> 0) by lia.
  destruct (constructor_failure_is_reported ex_env ex_st0 0 _ _ _ _ _ _
              Hin Hrv) as (_ & Ht & _).
  repeat split; assumption.
Defined.

Lemma appended_range_witness :
  In (EvAddTarget 99 (str "linear") 0 0)
    (calls_since ex_st0
       (dmfs_parse_line ex_env ex_st0 0 (str "0 100 linear /dev/x 0")))
  /\ exists tok1 p1,
       next_token (Some (str "0 100 linear /dev/x 0")) = (Some tok1, p1).
Proof.
  assert (Hin : In (EvAddTarget 99 (str "linear") 0 0)
                  (calls_since ex_st0
                     (dmfs_parse_line ex_env ex_st0 0
                        (str "0 100 linear /dev/x 0"))))
    by (vm_compute; auto 6).
  split; [exact Hin|].
  destruct (appended_range_continues_table ex_env ex_st0 0 _ _ _ _ _ Hin)
    as (tok1 & p1 & _ & _ & H1 & _).
  eauto.
Defined.

Lemma dmfs_copy_witness :
  0 <= 4 <= Z.of_nat (List.length (str "######")) /\
  exists k : nat,
    fst (fst (dmfs_copy ([] ++ str "######") 0 4 (str "ab" ++ NL :: str "cd")))
      = Z.of_nat k + 1.
Proof.
  assert (Hroom : 0 <= 4 <= Z.of_nat (List.length (str "######")))
    by (vm_compute; split; discriminate).
  split; [exact Hroom|].
  destruct (dmfs_copy_spec (str "ab" ++ NL :: str "cd") [] (str "######") 4
              3 true (str "ab" ++ NUL :: str "###") Hroom eq_refl)
    as (k & Hk & _).
  exists k. exact Hk.
Defined.

Lemma line_buffer_witness :
  linebuf_ok ex_env ex_linebuf /\ tmpl ex_linebuf < PAGE_SIZE ex_env - 1 /\
  exists rv st' lb' num',
    dmfs_parse_page ex_env ex_st0 (str "0 100 bogus" ++ NL :: str "1")
      ex_linebuf 0 = Some (rv, st', lb', num') /\
    tmpl lb' < PAGE_SIZE ex_env - 1.
Proof.
  assert (Hok : linebuf_ok ex_env ex_linebuf)
    by (split; vm_compute; [reflexivity|discriminate]).
  assert (Hlt : tmpl ex_linebuf < PAGE_SIZE ex_env - 1) by reflexivity.
  split; [exact Hok|]. split; [exact Hlt|].
  destruct (dmfs_parse_page_total ex_env ex_st0
              (str "0 100 bogus" ++ NL :: str "1") ex_linebuf 0)
    as ([[[rv st'] lb'] num'] & E).
  exists rv, st', lb', num'. split; [exact E|].
  apply (line_buffer_stays_in_page ex_env _ _ _ _ _ _ _ _ Hok Hlt E).
Defined.

Lemma two_chunk_witness :
  linebuf_ok ex_env ex_linebuf /\
  line_fits ex_env 0 (str "0 10" ++ str "0 linear /dev/x 0") = true /\
  feed_chunks ex_env ex_st0 ex_linebuf 0
    [str "0 10"; str "0 linear /dev/x 0" ++ NL :: []] =
  feed_chunks ex_env ex_st0 ex_linebuf 0
    [(str "0 10" ++ str "0 linear /dev/x 0") ++ NL :: []].
Proof.
  assert (Hok : linebuf_ok ex_env ex_linebuf)
    by (split; vm_compute; [reflexivity|discriminate]).
  assert (Hfit : line_fits ex_env 0 (str "0 10" ++ str "0 linear /dev/x 0")
                 = true) by reflexivity.
  split; [exact Hok|]. split; [exact Hfit|].
  apply (two_chunk_split_is_transparent ex_env ex_st0 ex_linebuf 0 _ _ []
           Hok eq_refl Hfit).
Defined.

Lemma three_chunk_witness :
  linebuf_ok ex_env ex_linebuf /\
  exists lb',
    feed_chunks ex_env ex_st0 ex_linebuf 0
      [str "0 10"; str "0 li"; str "near /dev/x 0" ++ [NL]] =
    Some (0,
          dmfs_parse_line ex_env ex_st0 0
            (cstring (firstn 4 (str "0 10" ++ str "0 li") ++
                      str "near /dev/x 0")),
          lb', 0 + 1).
Proof.
  assert (Hok : linebuf_ok ex_env ex_linebuf)
    by (split; vm_compute; [reflexivity|discriminate]).
  split; [exact Hok|].
  apply (three_chunk_split_overwrites ex_env ex_st0 ex_linebuf 0
           (str "0 10") (str "0 li") (str "near /dev/x 0") Hok);
    reflexivity.
Defined.

Lemma page_without_newline_witness :
  no_newline (repeat "a"%char 4096) = true /\
  dmfs_parse_pages ex_env ex_ino_plain 2 0 ex_loop0 =
  Some (mk_result None [(0, "Line too long"%string)]
          [EvGetFreePage true; EvCreateTable true; EvParsePage 0 4096;
           EvPrintk "dmfs_parse: Parse error"; EvFreePage; EvPutTable]).
Proof.
  assert (Hnl : no_newline (repeat "a"%char 4096) = true)
    by (vm_compute; reflexivity).
  assert (Hok : linebuf_ok ex_env (l_lb ex_loop0))
    by (split; vm_compute; [reflexivity|discriminate]).
  split; [exact Hnl|].
  apply (page_without_newline_is_fatal ex_env ex_ino_plain 2 0 ex_loop0
           (mk_page true (repeat "a"%char 4096))).
  - reflexivity.
  - reflexivity.
  - discriminate.
  - vm_compute. reflexivity.
  - exact Hnl.
  - exact Hok.
  - reflexivity.
Defined.

Lemma dmfs_readpage_witness :
  0 <= PAGE_SHIFT ex_env /\
  uptodate (vp_page (snd (dmfs_readpage ex_env ex_vm_page))) = true.
Proof.
  assert (H : 0 <= PAGE_SHIFT ex_env) by (vm_compute; discriminate).
  split; [exact H|].
  pose proof (dmfs_readpage_effect ex_env ex_vm_page H) as E.
  destruct (dmfs_readpage ex_env ex_vm_page) as [rv p'].
  apply E.
Defined.

Lemma short_file_wrap_witness :
  0 < 1 < 2 ^ Z.of_nat (BITS_PER_LONG ex_env) /\
  dmfs_parse_pages_fuel ex_env 5 ex_ino_short 0 51
    (mk_loop 1 ex_st0 ex_linebuf 2) = None.
Proof.
  assert (H : 0 < 1 < 2 ^ Z.of_nat (BITS_PER_LONG ex_env))
    by (vm_compute; split; reflexivity).
  split; [exact H|].
  rewrite (short_file_runs_until_wrap ex_env ex_ino_short 51
             (mk_loop 1 ex_st0 ex_linebuf 2) 5 H).
  - reflexivity.
  - intros i Hi. cbn [ex_ino_short small_file i_mapping l_index] in *.
    destruct (Z.eqb_spec i 0); [lia|reflexivity].
Defined.

Lemma short_file_witness :
  0 < i_size ex_ino_short < PAGE_SIZE ex_env /\
  exists r,
    dmfs_parse ex_env ex_ino_short = Some r /\
    parsed_lines (r_trace r) =
      [(0, str "0 100 linear /dev/x 0"); (1, str "100 50 linear /dev/y 0")].
Proof.
  assert (Hsize : 0 < i_size ex_ino_short < PAGE_SIZE ex_env)
    by (vm_compute; split; reflexivity).
  split; [exact Hsize|].
  destruct (short_file_is_parsed_line_by_line ex_env ex_ino_short
              (mk_page true
                 ((lines_bytes ex_two_ranges ++ str "150 10") ++
                  repeat NUL (4096 - 51)))
              ex_scratch ex_empty_table ex_two_ranges (str "150 10"))
    as (r & E & Hl & _).
  - vm_compute. discriminate.
  - exact Hsize.
  - reflexivity.
  - vm_compute. reflexivity.
  - reflexivity.
  - reflexivity.
  - reflexivity.
  - intros i Hi. cbn [ex_ino_short small_file i_mapping].
    destruct (Z.eqb_spec i 0); [lia|reflexivity].
  - vm_compute. reflexivity.
  - vm_compute. reflexivity.
  - reflexivity.
  - vm_compute. reflexivity.
  - exists r. split; [exact E|]. rewrite Hl. reflexivity.
Defined.

Lemma last_partial_page_witness :
  1 <= to_ulong ex_env
         (Z.shiftr (i_size ex_ino_short_last) (PAGE_SHIFT ex_env)) /\
  dmfs_parse ex_env ex_ino_short_last =
  dmfs_parse ex_env (without_page ex_ino_short_last 1).
Proof.
  assert (H : 1 <= to_ulong ex_env
                     (Z.shiftr (i_size ex_ino_short_last)
                        (PAGE_SHIFT ex_env)))
    by (vm_compute; discriminate).
  split; [exact H|].
  apply (last_partial_page_never_read ex_env ex_ino_short_last H).
Defined.
